(** * Account state machine and referral engine of the donation backend

    A shallow embedding of
    - the auth controllers [register], [verifyEmail], [loginUser],
      [googleLogin], [getCurrentUser], [forgotPassword], [resetPassword]
      and [resendVerificationEmail] (in [src/config/db.js]),
    - the referral controllers and [generateReferralCode], and the
      [protect] middleware that follows them in the same file
      ([src/controllers/referralController.js]),
    - [userSchema] and the two routers that follow it
      ([src/models/User.js]),
    followed by the properties of the account state machine
    (registration, verification, login with lockout, OAuth sign-in,
    password reset) and of the referral engine.

    Conventions of the embedding.
    - A Mongoose document is a record; the collection is the list of its
      documents in insertion order, which is the order [findOne] scans.
    - Schema paths of type [Number] hold integers in every run of the
      program; they are modelled by [Z].  [Date] values are milliseconds
      since the epoch, also [Z].  The source adds numbers as doubles:
      the sum is the integer sum as long as it stays within
      [MAX_SAFE_INTEGER] in magnitude, and is rounded beyond.
    - A path that may be absent ([undefined]) is an [option].
    - The schema option [timestamps] makes the library maintain
      [createdAt]/[updatedAt] on its own; no controller reads or writes
      them and they are not part of the record below.
    - [doc.save()] on a document loaded in the same request is the update
      of the document with that [_id]; the database is reachable and the
      validators, which [User.create] runs on every new document, pass
      again on the saved one.
    - A request body field that a controller hands to a query is a
      string; a field that the controller itself tests for presence, or
      hands to bcrypt, may be absent.
    - Every controller is an [async] function whose body is one
      [try]/[catch]; it is modelled in a small monad that threads the
      collection and the mail log, and that distinguishes a value, a
      response already sent ([return res.status(..).json(..)]) and a thrown
      exception.
    - Each request draws its non-deterministic inputs (clock, random bytes,
      salt, fresh object id, outcome of the mail transport, verdict of the
      token verifiers) from an [Env]. *)

From Stdlib Require Import ZArith List String Ascii Bool Lia.
Import ListNotations.
Local Open Scope string_scope.
Local Open Scope Z_scope.
Local Open Scope list_scope.

(** ** JavaScript values *)

(** [!!s] for a possibly absent string: [undefined] and [''] are falsy. *)
Definition truthy (o : option string) : bool :=
  match o with
  | Some s => negb (s =? "")%string
  | None => false
  end.

(** [s || d] for a possibly absent string. *)
Definition or_default (o : option string) (d : string) : string :=
  match o with
  | Some s => if (s =? "")%string then d else s
  | None => d
  end.

(** ** The User model ([userSchema] in [src/models/User.js]) *)

Definition ObjectId := string.

Record User := mkUser {
  _id : ObjectId;
  name : option string;
  email : string;
  password : option string;
  profilePicture : string;
  isVerified : bool;
  googleId : option string;
  sawabPoints : Z;
  referralCode : option string;
  referredBy : option ObjectId;
  referralCount : Z;
  verificationToken : option string;
  verificationTokenExpiry : option Z;
  resetPasswordToken : option string;
  resetPasswordExpiry : option Z;
  loginAttempts : Z;
  accountLocked : bool;
  lastLogin : option Z
}.

(** Assignments [user.path = value]. *)
Definition set_password (v : option string) (u : User) : User :=
  mkUser (_id u) (name u) (email u) v (profilePicture u) (isVerified u)
    (googleId u) (sawabPoints u) (referralCode u) (referredBy u)
    (referralCount u) (verificationToken u) (verificationTokenExpiry u)
    (resetPasswordToken u) (resetPasswordExpiry u) (loginAttempts u)
    (accountLocked u) (lastLogin u).

Definition set_isVerified (v : bool) (u : User) : User :=
  mkUser (_id u) (name u) (email u) (password u) (profilePicture u) v
    (googleId u) (sawabPoints u) (referralCode u) (referredBy u)
    (referralCount u) (verificationToken u) (verificationTokenExpiry u)
    (resetPasswordToken u) (resetPasswordExpiry u) (loginAttempts u)
    (accountLocked u) (lastLogin u).

Definition set_googleId (v : option string) (u : User) : User :=
  mkUser (_id u) (name u) (email u) (password u) (profilePicture u)
    (isVerified u) v (sawabPoints u) (referralCode u) (referredBy u)
    (referralCount u) (verificationToken u) (verificationTokenExpiry u)
    (resetPasswordToken u) (resetPasswordExpiry u) (loginAttempts u)
    (accountLocked u) (lastLogin u).

Definition set_sawabPoints (v : Z) (u : User) : User :=
  mkUser (_id u) (name u) (email u) (password u) (profilePicture u)
    (isVerified u) (googleId u) v (referralCode u) (referredBy u)
    (referralCount u) (verificationToken u) (verificationTokenExpiry u)
    (resetPasswordToken u) (resetPasswordExpiry u) (loginAttempts u)
    (accountLocked u) (lastLogin u).

Definition set_referralCode (v : option string) (u : User) : User :=
  mkUser (_id u) (name u) (email u) (password u) (profilePicture u)
    (isVerified u) (googleId u) (sawabPoints u) v (referredBy u)
    (referralCount u) (verificationToken u) (verificationTokenExpiry u)
    (resetPasswordToken u) (resetPasswordExpiry u) (loginAttempts u)
    (accountLocked u) (lastLogin u).

Definition set_referredBy (v : option ObjectId) (u : User) : User :=
  mkUser (_id u) (name u) (email u) (password u) (profilePicture u)
    (isVerified u) (googleId u) (sawabPoints u) (referralCode u) v
    (referralCount u) (verificationToken u) (verificationTokenExpiry u)
    (resetPasswordToken u) (resetPasswordExpiry u) (loginAttempts u)
    (accountLocked u) (lastLogin u).

Definition set_referralCount (v : Z) (u : User) : User :=
  mkUser (_id u) (name u) (email u) (password u) (profilePicture u)
    (isVerified u) (googleId u) (sawabPoints u) (referralCode u)
    (referredBy u) v (verificationToken u) (verificationTokenExpiry u)
    (resetPasswordToken u) (resetPasswordExpiry u) (loginAttempts u)
    (accountLocked u) (lastLogin u).

Definition set_verificationToken (v : option string) (u : User) : User :=
  mkUser (_id u) (name u) (email u) (password u) (profilePicture u)
    (isVerified u) (googleId u) (sawabPoints u) (referralCode u)
    (referredBy u) (referralCount u) v (verificationTokenExpiry u)
    (resetPasswordToken u) (resetPasswordExpiry u) (loginAttempts u)
    (accountLocked u) (lastLogin u).

Definition set_verificationTokenExpiry (v : option Z) (u : User) : User :=
  mkUser (_id u) (name u) (email u) (password u) (profilePicture u)
    (isVerified u) (googleId u) (sawabPoints u) (referralCode u)
    (referredBy u) (referralCount u) (verificationToken u) v
    (resetPasswordToken u) (resetPasswordExpiry u) (loginAttempts u)
    (accountLocked u) (lastLogin u).

Definition set_resetPasswordToken (v : option string) (u : User) : User :=
  mkUser (_id u) (name u) (email u) (password u) (profilePicture u)
    (isVerified u) (googleId u) (sawabPoints u) (referralCode u)
    (referredBy u) (referralCount u) (verificationToken u)
    (verificationTokenExpiry u) v (resetPasswordExpiry u) (loginAttempts u)
    (accountLocked u) (lastLogin u).

Definition set_resetPasswordExpiry (v : option Z) (u : User) : User :=
  mkUser (_id u) (name u) (email u) (password u) (profilePicture u)
    (isVerified u) (googleId u) (sawabPoints u) (referralCode u)
    (referredBy u) (referralCount u) (verificationToken u)
    (verificationTokenExpiry u) (resetPasswordToken u) v (loginAttempts u)
    (accountLocked u) (lastLogin u).

Definition set_loginAttempts (v : Z) (u : User) : User :=
  mkUser (_id u) (name u) (email u) (password u) (profilePicture u)
    (isVerified u) (googleId u) (sawabPoints u) (referralCode u)
    (referredBy u) (referralCount u) (verificationToken u)
    (verificationTokenExpiry u) (resetPasswordToken u)
    (resetPasswordExpiry u) v (accountLocked u) (lastLogin u).

Definition set_accountLocked (v : bool) (u : User) : User :=
  mkUser (_id u) (name u) (email u) (password u) (profilePicture u)
    (isVerified u) (googleId u) (sawabPoints u) (referralCode u)
    (referredBy u) (referralCount u) (verificationToken u)
    (verificationTokenExpiry u) (resetPasswordToken u)
    (resetPasswordExpiry u) (loginAttempts u) v (lastLogin u).

Definition set_lastLogin (v : option Z) (u : User) : User :=
  mkUser (_id u) (name u) (email u) (password u) (profilePicture u)
    (isVerified u) (googleId u) (sawabPoints u) (referralCode u)
    (referredBy u) (referralCount u) (verificationToken u)
    (verificationTokenExpiry u) (resetPasswordToken u)
    (resetPasswordExpiry u) (loginAttempts u) (accountLocked u) v.

(** What [userSchema.methods.toJSON] leaves of a document: it deletes
    [password], both verification paths, both reset paths and
    [loginAttempts]. *)
Record UserJSON := mkUserJSON {
  json_id : ObjectId;
  json_name : option string;
  json_email : string;
  json_profilePicture : string;
  json_isVerified : bool;
  json_googleId : option string;
  json_sawabPoints : Z;
  json_referralCode : option string;
  json_referredBy : option ObjectId;
  json_referralCount : Z;
  json_accountLocked : bool;
  json_lastLogin : option Z
}.

Definition toJSON (u : User) : UserJSON :=
  mkUserJSON (_id u) (name u) (email u) (profilePicture u) (isVerified u)
    (googleId u) (sawabPoints u) (referralCode u) (referredBy u)
    (referralCount u) (accountLocked u) (lastLogin u).

(** ** Exceptions, responses, mail *)

Inductive Exn :=
| ValidationError (path : string)   (* a [required] validator failed *)
| HookError (msg : string)          (* the pre-save hook passed an error *)
| DuplicateKey (path : string)      (* a unique index rejected the insert *)
| IllegalArguments                  (* bcryptjs given a non-string *)
| TypeError                         (* property read on [null] *)
| TransportError                    (* the mail transport rejected *)
| TokenError.                       (* a token verifier threw *)

Record Profile := mkProfile {
  profile_id : ObjectId;
  profile_email : string;
  profile_name : option string;
  profile_picture : string;
  profile_isVerified : bool
}.

(** The JSON bodies the controllers send. *)
Inductive Body :=
| Message (message : string)
| MessageError (message : string) (error : Exn)
| VerifiedBody (message : string) (id : ObjectId) (email : string)
    (name : string) (isVerified : bool) (token : string)
| SessionBody (token : string) (user : Profile)
| UserBody (user : option UserJSON)
| ReferralBody (referralCode : option string) (referralCount sawabPoints : Z)
| PointsMessageBody (message : string) (sawabPoints : Z)
| PointsBody (sawabPoints : Z).

Record Response := mkResponse { status : Z; body : Body }.

Definition message_of (b : Body) : option string :=
  match b with
  | Message m | MessageError m _ | VerifiedBody m _ _ _ _ _
  | PointsMessageBody m _ => Some m
  | _ => None
  end.

(** A mail handed to the transport: recipient, subject and the link that
    the HTML template embeds. *)
Record Mail := mkMail { mail_to : string; mail_subject : string; mail_link : string }.

(** ** The collection and the effects of a request *)

Definition Store := list User.

Record World := mkWorld { users : Store; outbox : list Mail }.

(** The library functions the controllers call and that depend on their
    arguments only: bcryptjs and the two string setters of the schema. *)
Class Platform := {
  bcrypt_hash : string -> string -> string;      (* password, salt *)
  bcrypt_compare : string -> string -> bool;     (* password, hash *)
  js_trim : string -> string;
  js_toLowerCase : string -> string
}.

(** The payload of a verified Google ID token. *)
Record GooglePayload := mkGooglePayload {
  g_email : string;
  g_name : option string;
  g_picture : option string;
  g_sub : string;
  g_email_verified : bool
}.

(** What one request reads from outside the collection. *)
Record Env := mkEnv {
  now : Z;                                  (* Date.now() *)
  randomHex : string;                       (* crypto.randomBytes(n).toString('hex') *)
  referralHex : list string;                (* the draws of generateReferralCode, in order *)
  genSalt : string;                         (* bcrypt.genSalt(10) *)
  newObjectId : ObjectId;                   (* the _id given to a new document *)
  sendMailOk : bool;                        (* does the transport resolve? *)
  production : bool;                        (* NODE_ENV === 'production' *)
  frontendUrl : string;                     (* FRONTEND_URL *)
  verifyIdToken : string -> option (option GooglePayload);
                                            (* None: threw; Some p: ticket.getPayload() *)
  jwtVerify : string -> option ObjectId;    (* None: jwt.verify threw; Some: decoded.id *)
  generateToken : ObjectId -> string        (* utils/generateToken.js *)
}.

(** How a piece of controller code ends: with a value, with a response
    sent and the controller left, with an exception, or never (a promise
    that does not settle). *)
Inductive Flow (A : Type) :=
| Next (a : A)
| Sent (r : Response)
| Thrown (e : Exn)
| Pending.

Arguments Next {A} a.
Arguments Sent {A} r.
Arguments Thrown {A} e.
Arguments Pending {A}.

Definition Handler (A : Type) := World -> World * Flow A.

(** A controller always ends by sending. *)
Definition Controller := Handler Empty_set.

Definition ret {A} (a : A) : Handler A := fun w => (w, Next a).

Definition bind {A B} (m : Handler A) (k : A -> Handler B) : Handler B :=
  fun w =>
    match m w with
    | (w', Next a) => k a w'
    | (w', Sent r) => (w', Sent r)
    | (w', Thrown e) => (w', Thrown e)
    | (w', Pending) => (w', Pending)
    end.

Notation "x <- m ;; k" := (bind m (fun x => k))
  (at level 61, m at next level, right associativity).
Notation "m ;;; k" := (bind m (fun _ => k))
  (at level 61, right associativity).

(** [return res.status(code).json(body)] *)
Definition respond {A} (code : Z) (b : Body) : Handler A :=
  fun w => (w, Sent (mkResponse code b)).

Definition throw {A} (e : Exn) : Handler A := fun w => (w, Thrown e).

(** [try { m } catch (e) { k e }]: what [m] did to the collection before
    it threw stays done. *)
Definition try_catch {A} (m : Handler A) (k : Exn -> Handler A) : Handler A :=
  fun w =>
    match m w with
    | (w', Thrown e) => k e w'
    | r => r
    end.

(** *** Queries *)

Definition field_is (o : option string) (s : string) : bool :=
  match o with
  | Some t => (t =? s)%string
  | None => false
  end.

(** [User.findOne(filter)]: the first document the filter accepts. *)
Definition findOne (filter : User -> bool) : Handler (option User) :=
  fun w => (w, Next (find filter (users w))).

Definition by_id (id : ObjectId) (u : User) : bool := (_id u =? id)%string.

(** [User.findById(id)] *)
Definition findById (id : ObjectId) : Handler (option User) := findOne (by_id id).

(** The update that [doc.save()] issues for a document loaded from the
    collection: it is addressed by [_id]. *)
Fixpoint updateOne (doc : User) (db : Store) : Store :=
  match db with
  | [] => []
  | v :: rest => if by_id (_id doc) v then doc :: rest else v :: updateOne doc rest
  end.

Definition save (doc : User) : Handler unit :=
  fun w => (mkWorld (updateOne doc (users w)) (outbox w), Next tt).

(** [transporter.sendMail(..)]: the mail is handed over; the promise
    rejects when the transport fails. *)
Definition sendMail (env : Env) (m : Mail) : Handler unit :=
  fun w =>
    (mkWorld (users w) (outbox w ++ [m]),
     if sendMailOk env then Next tt else Thrown TransportError).

Section Controllers.

Context {platform : Platform}.

(** The [email] path is declared [trim: true, lowercase: true]; Mongoose
    runs these setters on a value stored and on a value queried. *)
Definition castEmail (s : string) : string := js_toLowerCase (js_trim s).

Definition by_email (e : string) (u : User) : bool :=
  (email u =? castEmail e)%string.

(** Paths that [userSchema] does not declare read as [undefined]. *)
Definition facebookId (u : User) : option string := None.
Definition role (u : User) : option string := None.

(** [User.create(doc)]: setters, the [required] validators, the pre-save
    hook for a new document, then the insert under the unique indexes.
    The callers pass the schema's defaults for the paths they leave out:
    [''] for [profilePicture], [false], [0] for the counters. *)
Definition create (doc : User) : Handler User :=
  fun w =>
    let doc :=
      mkUser (_id doc) (option_map js_trim (name doc)) (castEmail (email doc))
        (password doc) (profilePicture doc) (isVerified doc) (googleId doc)
        (sawabPoints doc) (referralCode doc) (referredBy doc)
        (referralCount doc) (verificationToken doc)
        (verificationTokenExpiry doc) (resetPasswordToken doc)
        (resetPasswordExpiry doc) (loginAttempts doc) (accountLocked doc)
        (lastLogin doc) in
    if (email doc =? "")%string then (w, Thrown (ValidationError "email"))
    else if negb (truthy (googleId doc)) && negb (truthy (password doc))
    then (w, Thrown (ValidationError "password"))
    else if negb (truthy (password doc)) && negb (truthy (googleId doc))
    then (w, Thrown (HookError "User must have either a password or a social login method"))
    else if existsb (by_id (_id doc)) (users w)
    then (w, Thrown (DuplicateKey "_id"))
    else if existsb (fun v => (email v =? email doc)%string) (users w)
    then (w, Thrown (DuplicateKey "email"))
    else (mkWorld (users w ++ [doc]) (outbox w), Next doc).

Definition bcryptCompare (s hash : option string) : Handler bool :=
  match s, hash with
  | Some s, Some hash => ret (bcrypt_compare s hash)
  | _, _ => throw IllegalArguments
  end.

Definition bcryptHash (s : option string) (salt : string) : Handler string :=
  match s with
  | Some s => ret (bcrypt_hash s salt)
  | None => throw IllegalArguments
  end.

Definition verificationUrl (env : Env) (token : string) : string :=
  (frontendUrl env ++ "/verify-email?token=" ++ token)%string.

Definition resetUrl (env : Env) (token : string) : string :=
  (frontendUrl env ++ "/reset-password?token=" ++ token)%string.

Definition day_ms : Z := 24 * 60 * 60 * 1000.
Definition hour_ms : Z := 60 * 60 * 1000.

Definition locked_message : string :=
  "Your account has been locked due to too many failed login attempts. Please reset your password or contact support.".

Definition unverified_message : string :=
  "Please verify your email before logging in. A new verification email has been sent.".

(** *** [register]: POST /auth/register *)
Definition register (env : Env) (req_name req_email req_password : option string) : Controller :=
  try_catch
    (match req_email, req_password with
     | Some req_email, Some req_password =>
       if (req_email =? "")%string || (req_password =? "")%string
       then respond 400 (Message "Please provide email and password")
       else
         userExists <- findOne (by_email req_email) ;;
         match userExists with
         | Some _ => respond 400 (Message "User already exists")
         | None =>
           let verificationToken := randomHex env in
           let verificationTokenExpiry := now env + day_ms in
           hashedPassword <- bcryptHash (Some req_password) (genSalt env) ;;
           user <- create
             (set_isVerified false
               (set_verificationTokenExpiry (Some verificationTokenExpiry)
                 (set_verificationToken (Some verificationToken)
                   (set_password (Some hashedPassword)
                     (mkUser (newObjectId env) req_name req_email None "" false None
                        0 None None 0 None None None None 0 false None))))) ;;
           try_catch
             (sendMail env
                (mkMail req_email "Verify your email address"
                   (verificationUrl env verificationToken)))
             (fun _ => ret tt) ;;;
           respond 201
             (Message "User registered successfully. Please check your email to verify your account.")
         end
     | _, _ => respond 400 (Message "Please provide email and password")
     end)
    (fun _ => respond 500 (Message "Server error")).

(** *** [verifyEmail]: GET /auth/verify-email/:token *)
Definition verifyEmail (env : Env) (token : string) : Controller :=
  try_catch
    (user <- findOne (fun u => field_is (verificationToken u) token) ;;
     match user with
     | None => respond 400 (Message "Invalid verification token")
     | Some user =>
       let user := set_isVerified true user in
       let user := set_verificationToken None user in
       save user ;;;
       let jwtToken := generateToken env (_id user) in
       respond 200
         (VerifiedBody "Email verified successfully" (_id user) (email user)
            (or_default (name user) "") (isVerified user) jwtToken)
     end)
    (fun e => respond 500 (MessageError "Server error" e)).

(** *** [loginUser]: POST /auth/login *)
Definition loginUser (env : Env) (req_email : string) (req_password : option string) : Controller :=
  try_catch
    (user <- findOne (by_email req_email) ;;
     match user with
     | None => respond 400 (Message "Invalid credentials")
     | Some user =>
       if accountLocked user then respond 401 (Message locked_message)
       else if negb (isVerified user) && negb (truthy (googleId user))
               && negb (truthy (facebookId user))
       then
         let verificationToken := randomHex env in
         let verificationTokenExpiry := now env + day_ms in
         let user := set_verificationToken (Some verificationToken) user in
         let user := set_verificationTokenExpiry (Some verificationTokenExpiry) user in
         save user ;;;
         try_catch
           (sendMail env
              (mkMail req_email "Verify your email address"
                 (verificationUrl env verificationToken)))
           (fun _ => ret tt) ;;;
         respond 401 (Message unverified_message)
       else
         isMatch <- bcryptCompare req_password (password user) ;;
         if negb isMatch then
           let user := set_loginAttempts (loginAttempts user + 1) user in
           let user :=
             if loginAttempts user >=? 5 then set_accountLocked true user
             else user in
           save user ;;;
           respond 400 (Message "Invalid credentials")
         else
           let user := set_loginAttempts 0 user in
           let user := set_lastLogin (Some (now env)) user in
           save user ;;;
           let token := generateToken env (_id user) in
           respond 200
             (SessionBody token
                (mkProfile (_id user) (email user) (name user)
                   (profilePicture user) (isVerified user)))
     end)
    (fun _ => respond 500 (Message "Server error")).

(** *** [googleLogin]: POST /auth/google *)
Definition googleLogin (env : Env) (idToken : option string) : Controller :=
  try_catch
    (match idToken with
     | Some idToken =>
       if (idToken =? "")%string then respond 400 (Message "ID Token is required")
       else
         try_catch
           (ticket <- match verifyIdToken env idToken with
                      | Some ticket => ret ticket
                      | None => throw TokenError
                      end ;;
            match ticket with
            | None => respond 400 (Message "Invalid Google token")
            | Some payload =>
              user <- findOne (by_email (g_email payload)) ;;
              user <- match user with
                      | Some user =>
                        user <- (if negb (truthy (googleId user)) then
                                   let user := set_googleId (Some (g_sub payload)) user in
                                   save user ;;; ret user
                                 else ret user) ;;
                        if negb (isVerified user) && g_email_verified payload then
                          let user := set_isVerified true user in
                          save user ;;; ret user
                        else ret user
                      | None =>
                        let randomPassword := randomHex env in
                        hashedPassword <- bcryptHash (Some randomPassword) (genSalt env) ;;
                        create
                          (mkUser (newObjectId env)
                             (Some (or_default (g_name payload) ""))
                             (g_email payload) (Some hashedPassword)
                             (or_default (g_picture payload) "")
                             (g_email_verified payload) (Some (g_sub payload))
                             0 None None 0 None None None None 0 false None)
                      end ;;
              let token := generateToken env (_id user) in
              respond 200
                (SessionBody token
                   (mkProfile (_id user) (email user)
                      (Some (or_default (name user) ""))
                      (or_default (Some (profilePicture user)) "")
                      (isVerified user)))
            end)
           (fun verifyError =>
              respond 401 (MessageError "Failed to verify Google token" verifyError))
     | None => respond 400 (Message "ID Token is required")
     end)
    (fun e => respond 500 (MessageError "Server error" e)).

(** *** [getCurrentUser]: GET /auth/me *)
Definition getCurrentUser (env : Env) (req_user_id : ObjectId) : Controller :=
  try_catch
    (user <- findById req_user_id ;;
     respond 200 (UserBody (option_map toJSON user)))
    (fun _ => respond 500 (Message "Server error")).

(** *** [forgotPassword]: POST /auth/forgot-password *)
Definition forgotPassword (env : Env) (req_email : string) : Controller :=
  try_catch
    (user <- findOne (by_email req_email) ;;
     match user with
     | None => respond 404 (Message "User not found")
     | Some user =>
       let resetToken := randomHex env in
       let resetTokenExpiry := now env + hour_ms in
       let user := set_resetPasswordToken (Some resetToken) user in
       let user := set_resetPasswordExpiry (Some resetTokenExpiry) user in
       save user ;;;
       sendMail env
         (mkMail req_email "Password Reset Request" (resetUrl env resetToken)) ;;;
       respond 200 (Message "Password reset email sent")
     end)
    (fun _ => respond 500 (Message "Server error")).

(** The filter [{ resetPasswordToken: token, resetPasswordExpiry: { $gt: Date.now() } }]. *)
Definition by_reset_token (env : Env) (token : string) (u : User) : bool :=
  field_is (resetPasswordToken u) token
  && match resetPasswordExpiry u with
     | Some expiry => now env <? expiry
     | None => false
     end.

(** *** [resetPassword]: POST /auth/reset-password *)
Definition resetPassword (env : Env) (token : string) (req_password : option string) : Controller :=
  try_catch
    (user <- findOne (by_reset_token env token) ;;
     match user with
     | None => respond 400 (Message "Invalid or expired reset token")
     | Some user =>
       hashedPassword <- bcryptHash req_password (genSalt env) ;;
       let user := set_password (Some hashedPassword) user in
       let user := set_resetPasswordToken None user in
       let user := set_resetPasswordExpiry None user in
       save user ;;;
       respond 200 (Message "Password reset successful")
     end)
    (fun _ => respond 500 (Message "Server error")).

(** *** [resendVerificationEmail]: POST /auth/resend-verification

    In production the mail goes through [gmailEmailManager], otherwise
    through the development transport; recipient, subject and link are
    the same. *)
Definition resendVerificationEmail (env : Env) (req_email : option string) : Controller :=
  try_catch
    (match req_email with
     | Some req_email =>
       if (req_email =? "")%string then respond 400 (Message "Email is required")
       else
         user <- findOne (by_email req_email) ;;
         match user with
         | None => respond 404 (Message "User not found")
         | Some user =>
           if isVerified user then respond 400 (Message "Email is already verified")
           else
             let verificationToken := randomHex env in
             let user := set_verificationToken (Some verificationToken) user in
             save user ;;;
             try_catch
               (sendMail env
                  (mkMail req_email "Verify your email address"
                     (verificationUrl env verificationToken)) ;;;
                respond 200 (Message "Verification email sent successfully"))
               (fun emailError =>
                  respond 500 (MessageError "Failed to send verification email" emailError))
         end
     | None => respond 400 (Message "Email is required")
     end)
    (fun e => respond 500 (MessageError "Server error" e)).

(** ** The referral engine ([src/controllers/referralController.js]) *)

Definition is_alnum (c : ascii) : bool :=
  let n := N_of_ascii c in
  ((48 <=? n) && (n <=? 57) || (65 <=? n) && (n <=? 90)
   || (97 <=? n) && (n <=? 122))%N.

(** [s.replace(/[^a-zA-Z0-9]/g, '')] *)
Fixpoint keep_alnum (s : string) : string :=
  match s with
  | EmptyString => EmptyString
  | String c rest => if is_alnum c then String c (keep_alnum rest) else keep_alnum rest
  end.

(** [toUpperCase] on the letters that [keep_alnum] leaves. *)
Definition upper (c : ascii) : ascii :=
  let n := N_of_ascii c in
  if ((97 <=? n) && (n <=? 122))%N then ascii_of_N (n - 32) else c.

Fixpoint toUpperCase (s : string) : string :=
  match s with
  | EmptyString => EmptyString
  | String c rest => String (upper c) (toUpperCase rest)
  end.

(** [generateReferralCode]: the recursion draws again while the candidate
    is taken; [draws] are the values of [crypto.randomBytes(3).toString('hex')]
    in the order the recursion reads them, and the call is still pending
    when every draw made so far gave a taken code. *)
Fixpoint generateReferralCode (draws : list string) (userId : ObjectId) : Handler string :=
  match draws with
  | [] => fun w => (w, Pending)
  | hex :: draws' =>
    let baseCode := (substring 0 6 userId ++ hex)%string in
    let code := substring 0 8 (toUpperCase (keep_alnum baseCode)) in
    existingUser <- findOne (fun u => field_is (referralCode u) code) ;;
    match existingUser with
    | Some _ => generateReferralCode draws' userId
    | None => ret code
    end
  end.

(** Reading a property of [null] throws. *)
Definition loaded (user : option User) : Handler User :=
  match user with
  | Some user => ret user
  | None => throw TypeError
  end.

(** *** [getReferralInfo]: GET /referral *)
Definition getReferralInfo (env : Env) (req_user_id : ObjectId) : Controller :=
  try_catch
    (user <- findById req_user_id ;;
     user <- loaded user ;;
     user <- (if negb (truthy (referralCode user)) then
                code <- generateReferralCode (referralHex env) (_id user) ;;
                let user := set_referralCode (Some code) user in
                save user ;;; ret user
              else ret user) ;;
     respond 200
       (ReferralBody (referralCode user) (referralCount user) (sawabPoints user)))
    (fun _ => respond 500 (Message "Server error")).

(** *** [applyReferralCode]: POST /referral/apply *)
Definition applyReferralCode (env : Env) (req_user_id : ObjectId) (req_referralCode : string) : Controller :=
  try_catch
    (referrer <- findOne (fun u => field_is (referralCode u) req_referralCode) ;;
     match referrer with
     | None => respond 404 (Message "Invalid referral code")
     | Some referrer =>
       if (_id referrer =? req_user_id)%string
       then respond 400 (Message "You cannot refer yourself")
       else
         currentUser <- findById req_user_id ;;
         currentUser <- loaded currentUser ;;
         match referredBy currentUser with
         | Some _ => respond 400 (Message "You have already used a referral code")
         | None =>
           let referrer := set_sawabPoints (sawabPoints referrer + 5) referrer in
           let referrer := set_referralCount (referralCount referrer + 1) referrer in
           save referrer ;;;
           let currentUser := set_referredBy (Some (_id referrer)) currentUser in
           let currentUser := set_sawabPoints (sawabPoints currentUser + 2) currentUser in
           save currentUser ;;;
           respond 200
             (PointsMessageBody "Referral code applied successfully"
                (sawabPoints currentUser))
         end
     end)
    (fun _ => respond 500 (Message "Server error")).

(** *** [shareReferralLink]: POST /referral/share *)
Definition shareReferralLink (env : Env) (req_user_id : ObjectId) : Controller :=
  try_catch
    (user <- findById req_user_id ;;
     user <- loaded user ;;
     let user := set_sawabPoints (sawabPoints user + 2) user in
     save user ;;;
     respond 200 (PointsMessageBody "Points awarded for sharing" (sawabPoints user)))
    (fun _ => respond 500 (Message "Server error")).

(** *** [getSawabPoints]: GET /referral/points *)
Definition getSawabPoints (env : Env) (req_user_id : ObjectId) : Controller :=
  try_catch
    (user <- findById req_user_id ;;
     user <- loaded user ;;
     respond 200 (PointsBody (sawabPoints user)))
    (fun _ => respond 500 (Message "Server error")).

(** ** The [protect] middleware (second part of [src/controllers/referralController.js]) *)

Record Headers := mkHeaders {
  authorization : option string;    (* req.headers.authorization *)
  cookie_token : option string      (* req.cookies.token *)
}.

(** [s.split(' ')] *)
Fixpoint split_space (s : string) : list string :=
  match s with
  | EmptyString => [EmptyString]
  | String c rest =>
    if Ascii.eqb c " "%char then EmptyString :: split_space rest
    else match split_space rest with
         | part :: parts => String c part :: parts
         | [] => [String c EmptyString]
         end
  end.

Definition bearer_token (req : Headers) : option string :=
  match authorization req with
  | Some header =>
    if negb (header =? "")%string && prefix "Bearer" header
    then nth_error (split_space header) 1
    else if truthy (cookie_token req) then cookie_token req else None
  | None => if truthy (cookie_token req) then cookie_token req else None
  end.

(** [protect] either answers 401 or sets [req.user] and calls [next()];
    the value it passes on is [req.user.id]. *)
Definition protect (env : Env) (req : Headers) : Handler ObjectId :=
  try_catch
    (let token := bearer_token req in
     match token with
     | Some token =>
       if (token =? "")%string
       then respond 401 (Message "Not authorized to access this route")
       else
         decoded <- match jwtVerify env token with
                    | Some id => ret id
                    | None => throw TokenError
                    end ;;
         user <- findById decoded ;;
         match user with
         | None => respond 401 (Message "User not found")
         | Some user =>
           if negb (isVerified user) && negb (field_is (role user) "admin")
           then respond 401 (Message "Email not verified")
           else ret (_id user)
         end
     | None => respond 401 (Message "Not authorized to access this route")
     end)
    (fun _ => respond 401 (Message "Not authorized to access this route")).

(** [router.verb(path, protect, controller)] *)
Definition guarded (env : Env) (req : Headers) (controller : ObjectId -> Controller) : Controller :=
  req_user_id <- protect env req ;;
  controller req_user_id.

End Controllers.

(** ** The routes (the two routers at the end of [src/models/User.js]) *)

(** The routes registered behind [protect]. *)
Inductive ProtectedRoute :=
| GetMe                                         (* GET /auth/me *)
| PutProfile                                    (* PUT /auth/profile *)
| GetReferral                                   (* GET /referral *)
| PostReferralApply (referralCode : string)     (* POST /referral/apply *)
| PostReferralShare                             (* POST /referral/share *)
| GetReferralPoints.                            (* GET /referral/points *)

Inductive Request :=
| PostRegister (name email password : option string)
| GetVerifyEmail (token : string)
| PostLogin (email : string) (password : option string)
| PostGoogle (idToken : option string)
| PostForgotPassword (email : string)
| PostResetPassword (token : string) (password : option string)
| PostResendVerification (email : option string)
| Authenticated (req : Headers) (route : ProtectedRoute).

Section Routes.

Context {platform : Platform}.

(** The auth router binds PUT /profile to [updateProfile], imported from
    the auth controller; the controller source at hand defines no such
    function, so it is a parameter here. *)
Variable updateProfile : Env -> ObjectId -> Controller.

Definition protected_controller (env : Env) (route : ProtectedRoute) : ObjectId -> Controller :=
  match route with
  | GetMe => getCurrentUser env
  | PutProfile => updateProfile env
  | GetReferral => getReferralInfo env
  | PostReferralApply referralCode => fun id => applyReferralCode env id referralCode
  | PostReferralShare => shareReferralLink env
  | GetReferralPoints => getSawabPoints env
  end.

Definition dispatch (env : Env) (request : Request) : Controller :=
  match request with
  | PostRegister name email password => register env name email password
  | GetVerifyEmail token => verifyEmail env token
  | PostLogin email password => loginUser env email password
  | PostGoogle idToken => googleLogin env idToken
  | PostForgotPassword email => forgotPassword env email
  | PostResetPassword token password => resetPassword env token password
  | PostResendVerification email => resendVerificationEmail env email
  | Authenticated req route => guarded env req (protected_controller env route)
  end.

(** The requests are served one after the other, each with its own
    environment. *)
Fixpoint serve (trace : list (Env * Request)) (w : World) : World :=
  match trace with
  | [] => w
  | (env, request) :: rest => serve rest (fst (dispatch env request w))
  end.

End Routes.

(** ** Store invariants and the shape of an update *)

Definition ids (db : Store) : list ObjectId := map _id db.

(** [save] seen as a pointwise map: the document with the saved [_id] is
    replaced, the others stay. *)
Definition replace_doc (doc v : User) : User :=
  if by_id (_id doc) v then doc else v.

(** The lockout state of an account is sound when the counter is within
    0..5 and an unlocked account is below 5. *)
Definition lockout_ok (u : User) : Prop :=
  0 <= loginAttempts u <= 5 /\ (accountLocked u = false -> loginAttempts u < 5).

(** What one request may do to a stored account: its [_id] and [email]
    stay; the lockout pair stays, or (on an unlocked account) the counter
    goes up by one, locking at 5, or back to 0. *)
Definition account_step (u v : User) : Prop :=
  _id v = _id u /\ email v = email u /\
  ((loginAttempts v = loginAttempts u /\ accountLocked v = accountLocked u)
   \/ (accountLocked u = false /\ loginAttempts v = loginAttempts u + 1
       /\ accountLocked v = (loginAttempts v >=? 5))
   \/ (accountLocked u = false /\ loginAttempts v = 0 /\ accountLocked v = false)).

(** Verification is kept or raised, on the same document. *)
Definition verified_step (u v : User) : Prop :=
  _id v = _id u /\ (isVerified u = true -> isVerified v = true).

(** A new account starts with the schema's lockout defaults. *)
Definition fresh_account (v : User) : Prop :=
  loginAttempts v = 0 /\ accountLocked v = false.

(** The shape of what a request does to the collection: the documents
    stay in place, each related to its former self by [R], and new
    documents satisfying [F], with new ids, may be appended. *)
Definition evolves_by (R : User -> User -> Prop) (F : User -> Prop)
    (db db' : Store) : Prop :=
  exists old new,
    db' = old ++ new /\ Forall2 R db old /\
    Forall (fun v => F v /\ ~ In (_id v) (ids db)) new /\
    NoDup (ids new).

(** A request changes the stored accounts by [account_step]s. *)
Definition evolves : Store -> Store -> Prop :=
  evolves_by account_step fresh_account.

(** The account keeps its [_id], [email] and lockout pair. *)
Definition account_kept (u v : User) : Prop :=
  _id v = _id u /\ email v = email u
  /\ loginAttempts v = loginAttempts u /\ accountLocked v = accountLocked u.

(** A request that leaves the lockout pair of every account alone. *)
Definition keeps_lockout : Store -> Store -> Prop :=
  evolves_by account_kept fresh_account.

(** A controller that leaves [_id], [email] and the lockout pair of every
    account as they are and creates no account. *)
Definition keeps_accounts (c : Controller) : Prop :=
  forall w, Forall2 account_kept (users w) (users (fst (c w))).

(** ** A concrete platform and sample data

    Used to run the controllers on explicit requests. *)

(** A stand-in for bcrypt: the "hash" is the salt, a colon and the
    password; [compare] checks the part after the colon. *)
Fixpoint after_colon (s : string) : string :=
  match s with
  | EmptyString => EmptyString
  | String c rest => if Ascii.eqb c ":"%char then rest else after_colon rest
  end.

#[local] Instance sample_platform : Platform := {|
  bcrypt_hash := fun pw salt => (salt ++ ":" ++ pw)%string;
  bcrypt_compare := fun pw hash => (after_colon hash =? pw)%string;
  js_trim := fun s => s;
  js_toLowerCase := fun s => s
|}.

Definition sample_env : Env :=
  mkEnv 1000 "f00d" ["a1b2c3"; "d4e5f6"] "salt" "id9" true false
    "http://localhost:5173"
    (fun _ => None)
    (fun t => if (t =? "jwt-bob")%string then Some "id2"
              else if (t =? "jwt-alice")%string then Some "id1" else None)
    (fun id => ("jwt-" ++ id)%string).

(** A verified account with password "secret". *)
Definition alice : User :=
  mkUser "id1" (Some "Alice") "alice@example.org" (Some "salt:secret") ""
    true None 0 (Some "ID1A1B2C") None 0 None None None None 0 false None.

(** An account registered and not yet verified. *)
Definition bob : User :=
  mkUser "id2" (Some "Bob") "bob@example.org" (Some "salt:hunter2") ""
    false None 0 None None 0 (Some "t0ken") (Some 5000) None None 0 false None.

Definition sample_world : World := mkWorld [alice; bob] [].

(** An account that five failed attempts have locked; its password is
    "letmein". *)
Definition carol : User :=
  mkUser "id3" (Some "Carol") "carol@example.org" (Some "salt:letmein") ""
    true None 0 None None 0 None None None None 5 true None.

Definition locked_world : World := mkWorld [alice; carol] [].

(** A locked account with a pending, unexpired reset token. *)
Definition erin : User :=
  mkUser "id5" (Some "Erin") "erin@example.org" (Some "salt:old") ""
    true None 7 None None 0 None None (Some "r3set") (Some 2000) 5 true None.

Definition reset_world : World := mkWorld [alice; erin] [].

(** A verified account that no one has referred. *)
Definition frank : User :=
  mkUser "id6" (Some "Frank") "frank@example.org" (Some "salt:pw") ""
    true None 3 None None 0 None None None None 0 false None.

Definition referral_world : World := mkWorld [alice; frank] [].

(** Google vouches for bob's address. *)
Definition bob_payload : GooglePayload :=
  mkGooglePayload "bob@example.org" (Some "Bob") None "google-sub-2" true.

Definition google_env : Env :=
  mkEnv 1000 "f00d" ["a1b2c3"] "salt" "id9" true false "http://localhost:5173"
    (fun t => if (t =? "g-token")%string then Some (Some bob_payload) else None)
    (fun _ => None)
    (fun id => ("jwt-" ++ id)%string).

(** A profile controller that answers without writing. *)
Definition sample_updateProfile : Env -> ObjectId -> Controller :=
  fun _ _ => respond 200 (Message "Profile updated").

(** Registration of dave, his verification, then five logins with a
    wrong password and one with the right one. *)
Definition sample_trace : list (Env * Request) :=
  [ (sample_env, PostRegister (Some "Dave") (Some "dave@example.org") (Some "pw"));
    (sample_env, GetVerifyEmail "f00d");
    (sample_env, PostLogin "dave@example.org" (Some "guess1"));
    (sample_env, PostLogin "dave@example.org" (Some "guess2"));
    (sample_env, PostLogin "dave@example.org" (Some "guess3"));
    (sample_env, PostLogin "dave@example.org" (Some "guess4"));
    (sample_env, PostLogin "dave@example.org" (Some "guess5"));
    (sample_env, PostLogin "dave@example.org" (Some "pw")) ].

(** ** Predicates on strings and further sample data *)

Fixpoint string_forallb (p : ascii -> bool) (s : string) : bool :=
  match s with
  | EmptyString => true
  | String c rest => p c && string_forallb p rest
  end.

(** A digit or an upper-case letter. *)
Definition is_upper_alnum (c : ascii) : bool :=
  let n := N_of_ascii c in
  ((48 <=? n) && (n <=? 57) || (65 <=? n) && (n <=? 90))%N.

Definition not_space (c : ascii) : bool := negb (Ascii.eqb c " "%char).

(** The candidate that [generateReferralCode] builds from one draw. *)
Definition referral_candidate (userId : ObjectId) (hex : string) : string :=
  substring 0 8 (toUpperCase (keep_alnum (substring 0 6 userId ++ hex)%string)).

(** [n] calls of [shareReferralLink] by the same account. *)
Fixpoint share_times {platform : Platform} (n : nat) (env : Env)
    (req_user_id : ObjectId) (w : World) : World :=
  match n with
  | O => w
  | S n' => share_times n' env req_user_id
              (fst (shareReferralLink env req_user_id w))
  end.

(** [n] logins in a row for the same email with the same password. *)
Fixpoint login_times {platform : Platform} (n : nat) (env : Env)
    (req_email : string) (req_password : option string) (w : World) : World :=
  match n with
  | O => w
  | S n' => login_times n' env req_email req_password
              (fst (loginUser env req_email req_password w))
  end.

(** A later request: the clock is at 2000 and the transport fails. *)
Definition later_env : Env :=
  mkEnv 2000 "beef" ["0a0b0c"] "pepper" "id10" false false
    "http://localhost:5173"
    (fun _ => None) (fun _ => None) (fun id => ("jwt-" ++ id)%string).

(** A Google payload for an address without account, and one for
    carol's address. *)
Definition hugo_payload : GooglePayload :=
  mkGooglePayload "hugo@example.org" (Some "Hugo") None "google-sub-7" false.

Definition carol_payload : GooglePayload :=
  mkGooglePayload "carol@example.org" (Some "Carol") None "google-sub-3" true.

Definition oauth_env : Env :=
  mkEnv 1000 "f00d" ["a1b2c3"] "salt" "id9" true false "http://localhost:5173"
    (fun t => if (t =? "g-hugo")%string then Some (Some hugo_payload)
              else if (t =? "g-carol")%string then Some (Some carol_payload)
              else if (t =? "g-empty")%string then Some None
              else None)
    (fun _ => None)
    (fun id => ("jwt-" ++ id)%string).

(** An account already linked to a Google subject. *)
Definition ivan : User :=
  mkUser "id8" (Some "Ivan") "carol@example.org" (Some "salt:pw") ""
    true (Some "google-sub-OLD") 0 None None 0 None None None None 0 false None.

Definition linked_world : World := mkWorld [alice; ivan] [].

(** ** The mail manager ([GmailEmailManager.sendEmail], [src/unnamed/part_001]) *)

(** [html.replace(/<[^>]*>/g, '')], read left to right: after a '<' the
    characters are held back until the next '>', where they are dropped
    with it; when the string ends first, no '>' follows that '<' nor any
    later one, and what was held back is kept. *)
Fixpoint strip_scan (held : option string) (s : string) : string :=
  match s with
  | EmptyString =>
    match held with
    | Some text => text
    | None => EmptyString
    end
  | String c rest =>
    match held with
    | None =>
      if Ascii.eqb c "<"%char then strip_scan (Some "<") rest
      else String c (strip_scan None rest)
    | Some text =>
      if Ascii.eqb c ">"%char then strip_scan None rest
      else strip_scan (Some (text ++ String c EmptyString)%string) rest
    end
  end.

Definition strip_tags (html : string) : string := strip_scan None html.

(** The [text] of the mail options: [text || html.replace(/<[^>]*>/g, '')]. *)
Definition sendEmail_text (text : option string) (html : string) : string :=
  or_default text (strip_tags html).

Definition not_lt (c : ascii) : bool := negb (Ascii.eqb c "<"%char).
Definition not_gt (c : ascii) : bool := negb (Ascii.eqb c ">"%char).

(** ** What no request takes back *)

(** Between two states of the same account: points and referral count
    do not go down, a verified account stays verified, a referrer once
    recorded stays, a referral code once assigned stays, and a password
    hash is not removed. *)
Definition ledger_step (u v : User) : Prop :=
  _id v = _id u
  /\ sawabPoints u <= sawabPoints v
  /\ referralCount u <= referralCount v
  /\ (isVerified u = true -> isVerified v = true)
  /\ (forall r, referredBy u = Some r -> referredBy v = Some r)
  /\ (truthy (referralCode u) = true -> referralCode v = referralCode u)
  /\ (password u <> None -> password v <> None).

Definition has_password (v : User) : Prop := password v <> None.

(** A request changes the stored accounts by [ledger_step]s and creates
    accounts with a password hash only. *)
Definition ledger_evolves : Store -> Store -> Prop :=
  evolves_by ledger_step has_password.

(** A controller that changes every account by a [ledger_step] and
    creates no account. *)
Definition keeps_ledger (c : Controller) : Prop :=
  forall w, Forall2 ledger_step (users w) (users (fst (c w))).

(** ** Numbers *)

(** [Number.MAX_SAFE_INTEGER], 2^53 - 1: up to it in magnitude the
    doubles of the source are the integers, and [a + b] on them is the
    integer sum whenever the sum is in the range too. *)
Definition MAX_SAFE_INTEGER : Z := 9007199254740991.

(** ** Verification tokens that are not new *)







(** * Properties *)

(** ** Facts on queries and updates *)

Lemma by_id_true (i : ObjectId) (u : User) : by_id i u = true <-> _id u = i.
Proof. unfold by_id. apply String.eqb_eq. Qed.

Lemma by_id_false (i : ObjectId) (u : User) : by_id i u = false <-> _id u <> i.
Proof. unfold by_id. apply String.eqb_neq. Qed.

Lemma by_id_refl (u : User) : by_id (_id u) u = true.
Proof. apply by_id_true. reflexivity. Qed.

Lemma find_none_iff {A} (f : A -> bool) (l : list A) :
  find f l = None <-> forall x, In x l -> f x = false.
Proof.
  split.
  - intros H x Hx. exact (find_none f l H x Hx).
  - intros H. destruct (find f l) as [x|] eqn:E; [|reflexivity].
    apply find_some in E. destruct E as [Hx Hf].
    rewrite (H x Hx) in Hf. discriminate.
Qed.

Lemma ids_updateOne (doc : User) (db : Store) :
  ids (updateOne doc db) = ids db.
Proof.
  induction db as [|v rest IH]; simpl; [reflexivity|].
  destruct (by_id (_id doc) v) eqn:E; simpl.
  - apply by_id_true in E. now rewrite E.
  - now rewrite IH.
Qed.

Lemma replace_doc_absent (doc : User) (db : Store) :
  ~ In (_id doc) (ids db) -> map (replace_doc doc) db = db.
Proof.
  induction db as [|v rest IH]; simpl; intros H; [reflexivity|].
  unfold replace_doc at 1.
  destruct (by_id (_id doc) v) eqn:E.
  - apply by_id_true in E. exfalso. apply H. now left.
  - f_equal. apply IH. intros Hin. apply H. now right.
Qed.

(** With unique ids, [save] is the pointwise replacement. *)
Lemma updateOne_map (doc : User) (db : Store) :
  NoDup (ids db) -> updateOne doc db = map (replace_doc doc) db.
Proof.
  induction db as [|v rest IH]; simpl; intros H; [reflexivity|].
  inversion H as [|x l Hnotin Hnd]; subst.
  unfold replace_doc at 1.
  destruct (by_id (_id doc) v) eqn:E.
  - apply by_id_true in E. rewrite replace_doc_absent; [reflexivity|].
    now rewrite <- E.
  - f_equal. now apply IH.
Qed.

(** With unique ids, the document found by any filter is the one its
    [_id] addresses. *)
Lemma find_by_id_In (u : User) (db : Store) :
  NoDup (ids db) -> In u db -> find (by_id (_id u)) db = Some u.
Proof.
  induction db as [|v rest IH]; simpl; intros Hnd Hin; [contradiction|].
  inversion Hnd as [|x l Hnotin Hnd']; subst.
  destruct Hin as [->|Hin].
  - now rewrite by_id_refl.
  - destruct (by_id (_id u) v) eqn:E.
    + apply by_id_true in E. exfalso. apply Hnotin. rewrite E.
      unfold ids. now apply in_map.
    + now apply IH.
Qed.

Lemma find_by_id_found (f : User -> bool) (u : User) (db : Store) :
  NoDup (ids db) -> find f db = Some u -> find (by_id (_id u)) db = Some u.
Proof.
  intros Hnd H. apply find_some in H. now apply find_by_id_In.
Qed.

(** A query is not disturbed by a pointwise change that keeps the
    filter's verdict on every document. *)
Lemma find_map_stable (f : User -> bool) (g : User -> User) (db : Store) :
  (forall x, In x db -> f (g x) = f x) ->
  find f (map g db) = option_map g (find f db).
Proof.
  induction db as [|v rest IH]; simpl; intros H; [reflexivity|].
  rewrite (H v (or_introl eq_refl)).
  destruct (f v); [reflexivity|].
  apply IH. intros x Hx. apply H. now right.
Qed.

(** After [save], the document is what its [_id] addresses. *)
Lemma find_by_id_updateOne (doc v : User) (db : Store) :
  find (by_id (_id doc)) db = Some v ->
  find (by_id (_id doc)) (updateOne doc db) = Some doc.
Proof.
  induction db as [|x rest IH]; simpl; [discriminate|].
  destruct (by_id (_id doc) x) eqn:E; simpl.
  - intros _. now rewrite by_id_refl.
  - rewrite E. exact IH.
Qed.

(** [save] does not touch the documents with another [_id]. *)
Lemma find_by_id_updateOne_other (doc : User) (i : ObjectId) (db : Store) :
  _id doc <> i ->
  find (by_id i) (updateOne doc db) = find (by_id i) db.
Proof.
  intros Hne. induction db as [|x rest IH]; simpl; [reflexivity|].
  destruct (by_id (_id doc) x) eqn:E; simpl.
  - apply by_id_true in E.
    assert (by_id i doc = false) as -> by now apply by_id_false.
    assert (by_id i x = false) as -> by (apply by_id_false; congruence).
    reflexivity.
  - destruct (by_id i x); [reflexivity|exact IH].
Qed.

Lemma find_saved (u doc : User) (db : Store) :
  find (by_id (_id u)) db = Some u -> _id doc = _id u ->
  find (by_id (_id u)) (updateOne doc db) = Some doc.
Proof.
  intros Hfind Hid. rewrite <- Hid in *.
  exact (find_by_id_updateOne doc u db Hfind).
Qed.

Lemma find_saved_twice (u doc1 doc2 : User) (db : Store) :
  find (by_id (_id u)) db = Some u -> _id doc1 = _id u -> _id doc2 = _id u ->
  find (by_id (_id u)) (updateOne doc2 (updateOne doc1 db)) = Some doc2.
Proof.
  intros Hfind H1 H2.
  pose proof (find_saved u doc1 db Hfind H1) as Hf1.
  rewrite <- H2 in *.
  exact (find_by_id_updateOne doc2 doc1 _ Hf1).
Qed.

(** With unique ids, the documents after a [save] are the saved one and
    those with another [_id]. *)
Lemma In_updateOne_nodup (doc v : User) (db : Store) :
  NoDup (ids db) -> In v (updateOne doc db) ->
  v = doc \/ (In v db /\ _id v <> _id doc).
Proof.
  intros Hnd Hin. rewrite updateOne_map in Hin by assumption.
  apply in_map_iff in Hin. destruct Hin as [x [<- Hx]].
  unfold replace_doc. destruct (by_id (_id doc) x) eqn:E.
  - now left.
  - right. split; [assumption|]. now apply by_id_false.
Qed.

(** Unfolding the monad down to matches on the collection. *)
Ltac run_handler :=
  unfold try_catch, bind, findById, findOne, save, respond, ret, throw,
    loaded, bcryptCompare, bcryptHash; cbn.

Section Registration.

Context {platform : Platform}.

(** C3 (amended).  A registration whose email belongs to an existing
    account is answered with status 400 and creates no document; the
    message is 'User already exists' whenever the request carries an
    email and a password. *)
Theorem register_existing_email_rejected :
  forall env req_name req_email req_password w u,
    find (by_email req_email) (users w) = Some u ->
    exists b,
      register env req_name (Some req_email) req_password w
      = (w, Sent (mkResponse 400 b))
      /\ (req_email <> "" -> truthy req_password = true ->
          b = Message "User already exists").
Proof.
  intros env req_name req_email req_password w u Hfind.
  unfold register.
  destruct req_password as [pw|]; run_handler.
  - destruct (String.eqb_spec req_email "") as [He|He]; cbn.
    + eexists; split; [reflexivity|]. intros Hne; contradiction.
    + destruct (String.eqb_spec pw "") as [Hp|Hp]; cbn.
      * eexists; split; [reflexivity|]. intros _ Ht.
        subst pw. discriminate Ht.
      * rewrite Hfind. eexists; split; [reflexivity|]. reflexivity.
  - eexists; split; [reflexivity|]. intros _ Ht. discriminate Ht.
Qed.

End Registration.

(** C3, witness: registering alice's address again. *)
Lemma register_existing_email_rejected_witness :
  exists b,
    register sample_env None (Some "alice@example.org") (Some "pw") sample_world
    = (sample_world, Sent (mkResponse 400 b))
    /\ ("alice@example.org" <> "" -> truthy (Some "pw") = true ->
        b = Message "User already exists").
Proof.
  apply (register_existing_email_rejected sample_env None "alice@example.org"
           (Some "pw") sample_world alice).
  reflexivity.
Defined.

(** C3 as stated fails: the duplicate registration is answered 400, not
    409. *)
Lemma register_existing_email_not_409 :
  find (by_email "alice@example.org") (users sample_world) = Some alice
  /\ register sample_env None (Some "alice@example.org") (Some "pw") sample_world
     = (sample_world, Sent (mkResponse 400 (Message "User already exists")))
  /\ 400 <> 409.
Proof. repeat split; try reflexivity. discriminate. Qed.

Section Login.

Context {platform : Platform}.

(** The account after one more failed attempt, as [loginUser] writes it. *)
Lemma login_wrong_password_step :
  forall env req_email pw w u h,
    find (by_email req_email) (users w) = Some u ->
    accountLocked u = false ->
    isVerified u = true ->
    password u = Some h ->
    bcrypt_compare pw h = false ->
    let n := loginAttempts u + 1 in
    let u' := if n >=? 5 then set_accountLocked true (set_loginAttempts n u)
              else set_loginAttempts n u in
    loginUser env req_email (Some pw) w
    = (mkWorld (updateOne u' (users w)) (outbox w),
       Sent (mkResponse 400 (Message "Invalid credentials"))).
Proof.
  intros env req_email pw w u h Hfind Hlock Hver Hpw Hcmp n u'.
  unfold loginUser. run_handler.
  rewrite Hfind, Hlock, Hver. cbn.
  rewrite Hpw. cbn. rewrite Hcmp. cbn.
  reflexivity.
Qed.

(** A locked account answers every login with the lock message and
    nothing is written. *)
Lemma login_locked_step :
  forall env req_email req_password w u,
    find (by_email req_email) (users w) = Some u ->
    accountLocked u = true ->
    loginUser env req_email req_password w
    = (w, Sent (mkResponse 401 (Message locked_message))).
Proof.
  intros env req_email req_password w u Hfind Hlock.
  unfold loginUser. run_handler.
  rewrite Hfind, Hlock. reflexivity.
Qed.

(** C8.  A login naming an email without account and a login with a
    wrong password on a verified, unlocked account get the same
    response: status 400 and message 'Invalid credentials'. *)
Theorem login_failure_indistinguishable :
  forall env1 env2 email1 email2 password1 pw2 w1 w2 u h,
    find (by_email email1) (users w1) = None ->
    find (by_email email2) (users w2) = Some u ->
    isVerified u = true ->
    accountLocked u = false ->
    password u = Some h ->
    bcrypt_compare pw2 h = false ->
    exists w1' w2' r,
      loginUser env1 email1 password1 w1 = (w1', Sent r)
      /\ loginUser env2 email2 (Some pw2) w2 = (w2', Sent r)
      /\ status r = 400
      /\ message_of (body r) = Some "Invalid credentials".
Proof.
  intros env1 env2 email1 email2 password1 pw2 w1 w2 u h
         Hnone Hfind Hver Hlock Hpw Hcmp.
  rewrite (login_wrong_password_step env2 email2 pw2 w2 u h) by assumption.
  unfold loginUser. run_handler. rewrite Hnone.
  do 3 eexists. repeat split.
Qed.

End Login.

(** C8, witness: an unknown address against alice with a wrong password. *)
Lemma login_failure_indistinguishable_witness :
  exists w1' w2' r,
    loginUser sample_env "nobody@example.org" (Some "x") sample_world = (w1', Sent r)
    /\ loginUser sample_env "alice@example.org" (Some "wrong") sample_world = (w2', Sent r)
    /\ status r = 400
    /\ message_of (body r) = Some "Invalid credentials".
Proof.
  apply (login_failure_indistinguishable sample_env sample_env
           "nobody@example.org" "alice@example.org" (Some "x") "wrong"
           sample_world sample_world alice "salt:secret");
    reflexivity.
Defined.

(** ** How the collection evolves under a request *)

Lemma same_id_eq (db : Store) (x u : User) :
  NoDup (ids db) -> In x db -> In u db -> _id x = _id u -> x = u.
Proof.
  intros Hnd Hx Hu Hid.
  pose proof (find_by_id_In x db Hnd Hx) as Fx.
  pose proof (find_by_id_In u db Hnd Hu) as Fu.
  rewrite Hid in Fx. congruence.
Qed.

Lemma find_app_users (f : User -> bool) (l1 l2 : Store) :
  find f (l1 ++ l2) = match find f l1 with
                      | Some x => Some x
                      | None => find f l2
                      end.
Proof.
  induction l1 as [|x l1 IH]; simpl; [reflexivity|].
  destruct (f x); [reflexivity|exact IH].
Qed.

Section StepRelation.

Variable R : User -> User -> Prop.
Variable F : User -> Prop.

Hypothesis R_refl : forall u, R u u.
Hypothesis R_id : forall u v, R u v -> _id v = _id u.

Lemma Forall2_step_refl (db : Store) : Forall2 R db db.
Proof. induction db; constructor; auto. Qed.

Lemma evolves_by_refl (db : Store) : evolves_by R F db db.
Proof.
  exists db, []. rewrite app_nil_r.
  repeat split; auto using Forall2_step_refl; constructor.
Qed.

Lemma Forall2_map_pointwise (g : User -> User) (db : Store) :
  (forall x, In x db -> R x (g x)) -> Forall2 R db (map g db).
Proof.
  induction db as [|v rest IH]; simpl; intros H; constructor.
  - apply H. now left.
  - apply IH. intros x Hx. apply H. now right.
Qed.

Lemma evolves_by_map (g : User -> User) (db : Store) :
  (forall x, In x db -> R x (g x)) -> evolves_by R F db (map g db).
Proof.
  intros H. exists (map g db), []. rewrite app_nil_r.
  repeat split; auto using Forall2_map_pointwise; constructor.
Qed.

(** One [save] of a changed copy of a stored document. *)
Lemma evolves_by_updateOne (doc u : User) (db : Store) :
  NoDup (ids db) -> In u db -> R u doc ->
  evolves_by R F db (updateOne doc db).
Proof.
  intros Hnd Hu Hstep. rewrite updateOne_map by assumption.
  apply evolves_by_map. intros x Hx. unfold replace_doc.
  destruct (by_id (_id doc) x) eqn:E; [|apply R_refl].
  apply by_id_true in E.
  assert (x = u) as ->; [|assumption].
  apply (same_id_eq db); auto. rewrite E. now apply R_id.
Qed.

(** Two [save]s in a row, of documents loaded before the first. *)
Lemma evolves_by_updateOne2 (doc1 doc2 u1 u2 : User) (db : Store) :
  NoDup (ids db) -> In u1 db -> In u2 db ->
  R u1 doc1 -> R u2 doc2 ->
  (_id u1 = _id u2 -> R u1 doc2) ->
  evolves_by R F db (updateOne doc2 (updateOne doc1 db)).
Proof.
  intros Hnd H1 H2 S1 S2 S12.
  rewrite (updateOne_map doc2) by (now rewrite ids_updateOne).
  rewrite updateOne_map by assumption. rewrite map_map.
  apply evolves_by_map. intros x Hx. unfold replace_doc.
  pose proof (R_id _ _ S1) as I1. pose proof (R_id _ _ S2) as I2.
  destruct (by_id (_id doc1) x) eqn:E1.
  - apply by_id_true in E1.
    assert (x = u1) as -> by (apply (same_id_eq db); auto; congruence).
    destruct (by_id (_id doc2) doc1) eqn:E2; [|assumption].
    apply by_id_true in E2. apply S12. congruence.
  - destruct (by_id (_id doc2) x) eqn:E2; [|apply R_refl].
    apply by_id_true in E2.
    assert (x = u2) as -> by (apply (same_id_eq db); auto; congruence).
    assumption.
Qed.

(** One insert of a document with a fresh [_id]. *)
Lemma evolves_by_insert (doc : User) (db : Store) :
  F doc -> existsb (by_id (_id doc)) db = false ->
  evolves_by R F db (db ++ [doc]).
Proof.
  intros HF Hfresh. exists db, [doc].
  repeat split; auto using Forall2_step_refl.
  - constructor; [|constructor]. split; [assumption|].
    intros Hin. unfold ids in Hin. apply in_map_iff in Hin.
    destruct Hin as [v [Hv Hin]].
    assert (existsb (by_id (_id doc)) db = true) as Habs.
    { apply existsb_exists. exists v. split; [assumption|].
      now apply by_id_true. }
    congruence.
  - simpl. constructor; [simpl; tauto|constructor].
Qed.

Lemma Forall2_step_ids (db old : Store) :
  Forall2 R db old -> ids old = ids db.
Proof.
  induction 1 as [|u v db old Hstep _ IH]; simpl; [reflexivity|].
  now rewrite (R_id _ _ Hstep), IH.
Qed.

Lemma evolves_by_NoDup (db db' : Store) :
  NoDup (ids db) -> evolves_by R F db db' -> NoDup (ids db').
Proof.
  intros Hnd (old & new & -> & Hold & Hnew & Hndnew).
  unfold ids. rewrite map_app. fold (ids old). fold (ids new).
  rewrite (Forall2_step_ids _ _ Hold).
  apply NoDup_app; auto.
  intros i Hi Hin. unfold ids in Hin. apply in_map_iff in Hin.
  destruct Hin as [v [<- Hv]].
  rewrite Forall_forall in Hnew. destruct (Hnew v Hv) as (_ & Hfresh).
  contradiction.
Qed.

(** A lookup that succeeded keeps succeeding, on the same document, when
    the filter reads only what [R] keeps. *)
Lemma evolves_by_find (f : User -> bool) (db db' : Store) (u : User) :
  (forall a b, R a b -> f b = f a) ->
  evolves_by R F db db' -> find f db = Some u ->
  exists u', find f db' = Some u' /\ R u u'.
Proof.
  intros Hf (old & new & -> & Hold & _) Hfind.
  rewrite find_app_users.
  assert (exists u', find f old = Some u' /\ R u u') as (u' & -> & Hs).
  { clear new. revert Hfind.
    induction Hold as [|a b db old Hab _ IH]; simpl; [discriminate|].
    rewrite (Hf a b Hab). destruct (f a).
    - intros [= <-]. now exists b.
    - exact IH. }
  now exists u'.
Qed.

End StepRelation.

Lemma account_step_refl (u : User) : account_step u u.
Proof. unfold account_step. auto. Qed.

Lemma account_step_id (u v : User) : account_step u v -> _id v = _id u.
Proof. now intros [H _]. Qed.

Lemma verified_step_refl (u : User) : verified_step u u.
Proof. unfold verified_step. auto. Qed.

Lemma verified_step_id (u v : User) : verified_step u v -> _id v = _id u.
Proof. now intros [H _]. Qed.

Lemma account_kept_refl (u : User) : account_kept u u.
Proof. unfold account_kept. auto. Qed.

Lemma account_kept_id (u v : User) : account_kept u v -> _id v = _id u.
Proof. now intros [H _]. Qed.

Lemma account_kept_step (u v : User) : account_kept u v -> account_step u v.
Proof. intros (Hid & He & Ha & Hl). unfold account_step. auto. Qed.

Create HintDb steps.
#[local] Hint Resolve account_step_refl account_step_id
  account_kept_refl account_kept_id
  verified_step_refl verified_step_id : steps.

(** A request that keeps the lockout pairs is in particular a request of
    the account state machine. *)
Lemma keeps_lockout_evolves (db db' : Store) :
  keeps_lockout db db' -> evolves db db'.
Proof.
  intros (old & new & Heq & Hold & Hnew & Hnd).
  exists old, new. repeat split; auto.
  clear Heq Hnew Hnd. induction Hold; constructor; auto using account_kept_step.
Qed.

Lemma evolves_NoDup (db db' : Store) :
  NoDup (ids db) -> evolves db db' -> NoDup (ids db').
Proof. apply evolves_by_NoDup. auto with steps. Qed.

Lemma account_step_lockout (u v : User) :
  account_step u v -> lockout_ok u -> lockout_ok v.
Proof.
  unfold account_step, lockout_ok.
  intros (_ & _ & [[Ha Hl]|[(Hl & Ha & Hv)|(Hl & Ha & Hv)]]) [Hb Hu].
  - rewrite Ha, Hl. auto.
  - specialize (Hu Hl). split; [lia|].
    rewrite Hv. intros Hge.
    destruct (Z.geb_spec (loginAttempts v) 5); [discriminate|lia].
  - rewrite Ha. split; [lia|]. intros _. lia.
Qed.

Lemma evolves_lockout (db db' : Store) :
  Forall lockout_ok db -> evolves db db' -> Forall lockout_ok db'.
Proof.
  intros Hok (old & new & -> & Hold & Hnew & _).
  apply Forall_app. split.
  - clear Hnew. induction Hold as [|u v db old Hstep _ IH]; constructor.
    + apply (account_step_lockout u v Hstep). now inversion Hok.
    + apply IH. now inversion Hok.
  - apply (Forall_impl _ (P := fun v => fresh_account v /\ ~ In (_id v) (ids db)));
      [|assumption].
    intros v ((Ha & Hl) & _). unfold lockout_ok. rewrite Ha. lia.
Qed.

(** Case analysis on the scrutinees of a controller, innermost first. *)
Ltac crunch :=
  repeat (cbn;
    match goal with
    | |- context [match ?x with _ => _ end] =>
      lazymatch x with
      | context [match _ with _ => _ end] => fail
      | _ => destruct x eqn:?
      end
    end).

Ltac step_solver :=
  unfold account_step; cbn; split; [reflexivity|split; [reflexivity|]];
  first [ left; split; reflexivity
        | right; left; repeat split; solve [auto | congruence]
        | right; right; repeat split; solve [auto | congruence] ].

Ltac kept_solver := unfold account_kept; cbn; repeat split; reflexivity.

Ltac fresh_solver := split; reflexivity.

(** The collection at the end of a branch is the one at the start, one
    or two [save]s of loaded documents, or one insert. *)
Ltac evolve_leaf solver creator :=
  simpl;
  first
    [ apply evolves_by_refl; solve [auto with steps]
    | match goal with
      | H : find _ _ = Some ?u |- evolves_by _ _ _ (updateOne _ (updateOne _ _)) =>
        match goal with
        | H' : find _ _ = Some ?u' |- _ =>
          apply (evolves_by_updateOne2 _ _) with (u1 := u) (u2 := u');
          [ solve [auto with steps] | solve [auto with steps]
          | assumption | apply (find_some _ _ H) | apply (find_some _ _ H')
          | solver | solver | intros; solver ]
        end
      | H : find _ _ = Some ?u |- evolves_by _ _ _ (updateOne _ _) =>
        apply (evolves_by_updateOne _ _) with (u := u);
        [ solve [auto with steps] | solve [auto with steps]
        | assumption | apply (find_some _ _ H) | solver ]
      | |- evolves_by _ _ _ (_ ++ [_]) =>
        apply evolves_by_insert;
        [ solve [auto with steps] | creator | assumption ]
      end ].

Section Evolution.

Context {platform : Platform}.

(** The login controller moves the lockout pair of the account it finds
    by the three steps of [account_step]. *)
Lemma loginUser_evolves env e p w :
  NoDup (ids (users w)) -> evolves (users w) (users (fst (loginUser env e p w))).
Proof.
  intros Hnd. unfold loginUser. run_handler.
  crunch; unfold evolves; evolve_leaf step_solver fresh_solver.
Qed.

(** The other controllers leave the lockout pair of every account alone. *)
Lemma register_keeps env n e p w :
  NoDup (ids (users w)) ->
  keeps_lockout (users w) (users (fst (register env n e p w))).
Proof.
  intros Hnd. unfold register, create. run_handler.
  crunch; unfold keeps_lockout; evolve_leaf kept_solver fresh_solver.
Qed.

Lemma verifyEmail_keeps env t w :
  NoDup (ids (users w)) ->
  keeps_lockout (users w) (users (fst (verifyEmail env t w))).
Proof.
  intros Hnd. unfold verifyEmail. run_handler.
  crunch; unfold keeps_lockout; evolve_leaf kept_solver fresh_solver.
Qed.

Lemma googleLogin_keeps env t w :
  NoDup (ids (users w)) ->
  keeps_lockout (users w) (users (fst (googleLogin env t w))).
Proof.
  intros Hnd. unfold googleLogin, create. run_handler.
  crunch; unfold keeps_lockout; evolve_leaf kept_solver fresh_solver.
Qed.

Lemma getCurrentUser_keeps env i w :
  NoDup (ids (users w)) ->
  keeps_lockout (users w) (users (fst (getCurrentUser env i w))).
Proof.
  intros Hnd. unfold getCurrentUser. run_handler.
  crunch; unfold keeps_lockout; evolve_leaf kept_solver fresh_solver.
Qed.

Lemma forgotPassword_keeps env e w :
  NoDup (ids (users w)) ->
  keeps_lockout (users w) (users (fst (forgotPassword env e w))).
Proof.
  intros Hnd. unfold forgotPassword, sendMail. run_handler.
  crunch; unfold keeps_lockout; evolve_leaf kept_solver fresh_solver.
Qed.

Lemma resetPassword_keeps env t p w :
  NoDup (ids (users w)) ->
  keeps_lockout (users w) (users (fst (resetPassword env t p w))).
Proof.
  intros Hnd. unfold resetPassword. run_handler.
  crunch; unfold keeps_lockout; evolve_leaf kept_solver fresh_solver.
Qed.

Lemma resendVerificationEmail_keeps env e w :
  NoDup (ids (users w)) ->
  keeps_lockout (users w) (users (fst (resendVerificationEmail env e w))).
Proof.
  intros Hnd. unfold resendVerificationEmail, sendMail. run_handler.
  crunch; unfold keeps_lockout; evolve_leaf kept_solver fresh_solver.
Qed.

(** The recursion of [generateReferralCode] only reads. *)
Lemma generateReferralCode_world draws id w :
  fst (generateReferralCode draws id w) = w.
Proof.
  induction draws as [|hex draws IH]; simpl; [reflexivity|].
  run_handler. destruct (find _ (users w)); [apply IH|reflexivity].
Qed.

Lemma getReferralInfo_keeps env i w :
  NoDup (ids (users w)) ->
  keeps_lockout (users w) (users (fst (getReferralInfo env i w))).
Proof.
  intros Hnd. unfold getReferralInfo, keeps_lockout. run_handler.
  destruct (find (by_id i) (users w)) as [u|] eqn:Hu; cbn;
    [|apply evolves_by_refl; auto with steps].
  destruct (truthy (referralCode u)); cbn;
    [apply evolves_by_refl; auto with steps|].
  pose proof (generateReferralCode_world (referralHex env) (_id u) w) as Hw.
  destruct (generateReferralCode (referralHex env) (_id u) w) as [w0 f].
  simpl in Hw. subst w0.
  destruct f; evolve_leaf kept_solver fresh_solver.
Qed.

Lemma applyReferralCode_keeps env i c w :
  NoDup (ids (users w)) ->
  keeps_lockout (users w) (users (fst (applyReferralCode env i c w))).
Proof.
  intros Hnd. unfold applyReferralCode. run_handler. crunch;
    unfold keeps_lockout; try solve [evolve_leaf kept_solver fresh_solver].
  match goal with
  | Hr : find _ _ = Some ?r, Hc : find (by_id _) _ = Some ?c |- _ =>
    apply (evolves_by_updateOne2 _ _) with (u1 := r) (u2 := c);
      [ solve [auto with steps] | solve [auto with steps]
      | assumption | apply (find_some _ _ Hr) | apply (find_some _ _ Hc)
      | kept_solver | kept_solver | ];
    intros Hid; apply find_some in Hc; destruct Hc as [_ Hc];
    apply by_id_true in Hc
  end.
  match goal with
  | H : (_ =? _)%string = false |- _ => apply String.eqb_neq in H
  end.
  congruence.
Qed.

Lemma shareReferralLink_keeps env i w :
  NoDup (ids (users w)) ->
  keeps_lockout (users w) (users (fst (shareReferralLink env i w))).
Proof.
  intros Hnd. unfold shareReferralLink. run_handler.
  crunch; unfold keeps_lockout; evolve_leaf kept_solver fresh_solver.
Qed.

Lemma getSawabPoints_keeps env i w :
  NoDup (ids (users w)) ->
  keeps_lockout (users w) (users (fst (getSawabPoints env i w))).
Proof.
  intros Hnd. unfold getSawabPoints. run_handler.
  crunch; unfold keeps_lockout; evolve_leaf kept_solver fresh_solver.
Qed.

(** [protect] writes nothing. *)
Lemma protect_world env req w : fst (protect env req w) = w.
Proof.
  unfold protect. run_handler. crunch; reflexivity.
Qed.

End Evolution.

(** ** Invariants along a trace of requests *)

Lemma account_step_locked (u v : User) :
  account_step u v -> accountLocked u = true -> accountLocked v = true.
Proof.
  intros (_ & _ & [[_ Hl]|[(Hl & _)|(Hl & _)]]) H; congruence.
Qed.

(** After [save] of a changed copy that the filter still accepts, the
    lookup returns the copy. *)
Lemma find_after_save (f : User -> bool) (doc u : User) (db : Store) :
  NoDup (ids db) -> find f db = Some u -> _id doc = _id u -> f doc = true ->
  find f (updateOne doc db) = Some doc.
Proof.
  intros Hnd Hfind Hid Hf.
  pose proof (find_some _ _ Hfind) as [Hin Hfu].
  rewrite updateOne_map by assumption.
  rewrite find_map_stable.
  - rewrite Hfind. simpl. unfold replace_doc.
    now rewrite Hid, by_id_refl.
  - intros x Hx. unfold replace_doc.
    destruct (by_id (_id doc) x) eqn:E; [|reflexivity].
    apply by_id_true in E.
    assert (x = u) as -> by (apply (same_id_eq db); auto; congruence).
    congruence.
Qed.

Section Invariants.

Context {platform : Platform}.

Variable updateProfile : Env -> ObjectId -> Controller.

Hypothesis updateProfile_keeps :
  forall env id, keeps_accounts (updateProfile env id).

Lemma updateProfile_keeps_lockout env id w :
  keeps_lockout (users w) (users (fst (updateProfile env id w))).
Proof.
  exists (users (fst (updateProfile env id w))), []. rewrite app_nil_r.
  split; [reflexivity|]. split; [|split; constructor].
  exact (updateProfile_keeps env id w).
Qed.

(** Every request but a login leaves the lockout pair of every account
    as it was. *)
Lemma dispatch_keeps env request w :
  NoDup (ids (users w)) ->
  (forall e p, request <> PostLogin e p) ->
  keeps_lockout (users w) (users (fst (dispatch updateProfile env request w))).
Proof.
  intros Hnd Hother.
  destruct request as [n e p|t|e p|t|e|t p|e|req route]; cbn [dispatch].
  - now apply register_keeps.
  - now apply verifyEmail_keeps.
  - now destruct (Hother e p).
  - now apply googleLogin_keeps.
  - now apply forgotPassword_keeps.
  - now apply resetPassword_keeps.
  - now apply resendVerificationEmail_keeps.
  - unfold guarded, bind.
    pose proof (protect_world env req w) as Hw.
    destruct (protect env req w) as [w0 f]. simpl in Hw. subst w0.
    destruct f as [id| | |]; try (apply evolves_by_refl; auto with steps).
    destruct route; cbn [protected_controller].
    + now apply getCurrentUser_keeps.
    + apply updateProfile_keeps_lockout.
    + now apply getReferralInfo_keeps.
    + now apply applyReferralCode_keeps.
    + now apply shareReferralLink_keeps.
    + now apply getSawabPoints_keeps.
Qed.

Lemma dispatch_evolves env request w :
  NoDup (ids (users w)) ->
  evolves (users w) (users (fst (dispatch updateProfile env request w))).
Proof.
  intros Hnd.
  destruct request as [n e p|t|e p|t|e|t p|e|req route];
    try (apply keeps_lockout_evolves, dispatch_keeps;
         [assumption|discriminate]).
  now apply loginUser_evolves.
Qed.

(** Unique ids and sound lockout pairs are kept by every trace. *)
Lemma serve_invariant trace :
  forall w,
    NoDup (ids (users w)) -> Forall lockout_ok (users w) ->
    NoDup (ids (users (serve updateProfile trace w)))
    /\ Forall lockout_ok (users (serve updateProfile trace w)).
Proof.
  induction trace as [|[env request] trace IH]; simpl; intros w Hnd Hok.
  - auto.
  - pose proof (dispatch_evolves env request w Hnd) as Hev.
    apply IH.
    + exact (evolves_NoDup _ _ Hnd Hev).
    + exact (evolves_lockout _ _ Hok Hev).
Qed.

(** A locked account is found locked after any trace. *)
Lemma serve_locked trace :
  forall w req_email u,
    NoDup (ids (users w)) ->
    find (by_email req_email) (users w) = Some u ->
    accountLocked u = true ->
    exists u',
      find (by_email req_email) (users (serve updateProfile trace w)) = Some u'
      /\ accountLocked u' = true.
Proof.
  induction trace as [|[env request] trace IH]; simpl;
    intros w req_email u Hnd Hfind Hlock.
  - now exists u.
  - pose proof (dispatch_evolves env request w Hnd) as Hev.
    assert (forall a b, account_step a b ->
                        by_email req_email b = by_email req_email a) as Hf.
    { intros a b (_ & He & _). unfold by_email. now rewrite He. }
    destruct (evolves_by_find _ _ _ _ _ u Hf Hev Hfind) as (u1 & Hfind1 & Hstep).
    apply (IH _ req_email u1).
    + exact (evolves_NoDup _ _ Hnd Hev).
    + assumption.
    + exact (account_step_locked _ _ Hstep Hlock).
Qed.

End Invariants.

Lemma sample_updateProfile_keeps :
  forall env id, keeps_accounts (sample_updateProfile env id).
Proof.
  intros env id w. unfold sample_updateProfile, respond. simpl.
  induction (users w); constructor; auto using account_kept_refl.
Qed.

(** ** Lockout *)

(** C9.  From the empty collection, whatever requests are served,
    every stored account has [loginAttempts] between 0 and 5, and a
    counter at 5 goes with [accountLocked].  Each request changes the
    lockout pair of an account at most by one [account_step]: on an
    unlocked account, one up (locking at 5) or back to 0; and every
    request other than a login, password reset included, leaves the pair
    of every account as it was.  The profile controller, whose source is
    not at hand, is any controller that leaves [_id], [email],
    [loginAttempts] and [accountLocked] alone. *)
Theorem loginAttempts_bounded {platform : Platform} :
  forall updateProfile,
    (forall env id, keeps_accounts (updateProfile env id)) ->
    (forall trace,
        Forall (fun u => 0 <= loginAttempts u <= 5
                         /\ (loginAttempts u = 5 -> accountLocked u = true))
          (users (serve updateProfile trace (mkWorld [] []))))
    /\ (forall env request w,
          NoDup (ids (users w)) ->
          let db' := users (fst (dispatch updateProfile env request w)) in
          evolves (users w) db'
          /\ ((forall e p, request <> PostLogin e p) ->
              keeps_lockout (users w) db')).
Proof.
  intros updateProfile Hkeeps. split.
  - intros trace.
    destruct (serve_invariant updateProfile Hkeeps trace (mkWorld [] []))
      as [_ Hok]; simpl; try constructor.
    apply (Forall_impl _ (P := lockout_ok)); [|exact Hok].
    intros u [Hb Hl]. split; [exact Hb|].
    intros H5. destruct (accountLocked u); [reflexivity|].
    specialize (Hl eq_refl). lia.
  - intros env request w Hnd db'. split.
    + now apply dispatch_evolves.
    + intros Hother. now apply dispatch_keeps.
Qed.

(** C9, witness: dave registers, verifies and fails five logins; erin's
    password reset keeps her lockout pair. *)
Lemma loginAttempts_bounded_witness :
  Forall (fun u => 0 <= loginAttempts u <= 5
                   /\ (loginAttempts u = 5 -> accountLocked u = true))
    (users (serve sample_updateProfile sample_trace (mkWorld [] [])))
  /\ keeps_lockout (users reset_world)
       (users (fst (dispatch sample_updateProfile sample_env
                      (PostResetPassword "r3set" (Some "new")) reset_world))).
Proof.
  assert (NoDup (ids (users reset_world))) as Hnd
    by (repeat constructor; simpl; intuition discriminate).
  destruct (loginAttempts_bounded sample_updateProfile sample_updateProfile_keeps)
    as [Hbound Hstep].
  split.
  - exact (Hbound sample_trace).
  - apply (Hstep sample_env (PostResetPassword "r3set" (Some "new")) reset_world Hnd).
    discriminate.
Defined.

(** The trace of the witness does lock dave: the counter is at 5. *)
Example sample_trace_locks :
  map (fun u => (email u, loginAttempts u, accountLocked u))
    (users (serve sample_updateProfile sample_trace (mkWorld [] [])))
  = [("dave@example.org", 5, true)].
Proof. reflexivity. Qed.

(** C1.  On a known, verified, unlocked account a login with a wrong
    password stores the account with [loginAttempts] one higher, locked
    exactly when the new count has reached 5, and answers 400 'Invalid
    credentials'.  Once the account is locked, every later login for it,
    whatever the password and whatever requests were served in between,
    answers 401 with the lock message and writes nothing. *)
Theorem login_lockout {platform : Platform} :
  forall updateProfile,
    (forall env id, keeps_accounts (updateProfile env id)) ->
    forall env req_email w u,
      NoDup (ids (users w)) ->
      find (by_email req_email) (users w) = Some u ->
      (forall pw h,
          accountLocked u = false -> isVerified u = true ->
          password u = Some h -> bcrypt_compare pw h = false ->
          exists u',
            loginUser env req_email (Some pw) w
            = (mkWorld (updateOne u' (users w)) (outbox w),
               Sent (mkResponse 400 (Message "Invalid credentials")))
            /\ find (by_email req_email) (updateOne u' (users w)) = Some u'
            /\ loginAttempts u' = loginAttempts u + 1
            /\ (accountLocked u' = true <-> 5 <= loginAttempts u + 1))
      /\ (accountLocked u = true ->
          forall trace env' req_password,
            let w' := serve updateProfile trace w in
            loginUser env' req_email req_password w'
            = (w', Sent (mkResponse 401 (Message locked_message)))).
Proof.
  intros updateProfile Hkeeps env req_email w u Hnd Hfind. split.
  - intros pw h Hlock Hver Hpw Hcmp.
    pose proof (find_some _ _ Hfind) as [_ Hmail].
    rewrite (login_wrong_password_step env req_email pw w u h) by assumption.
    destruct (Z.geb_spec (loginAttempts u + 1) 5) as [Hge|Hlt];
      eexists; (split; [reflexivity|]); split.
    + apply (find_after_save _ _ u); auto.
    + simpl. split; [reflexivity|]. split; [lia|reflexivity].
    + apply (find_after_save _ _ u); auto.
    + simpl. split; [reflexivity|]. rewrite Hlock. split; [discriminate|lia].
  - intros Hlock trace env' req_password w'.
    destruct (serve_locked updateProfile Hkeeps trace w req_email u Hnd Hfind Hlock)
      as (u' & Hfind' & Hlock').
    exact (login_locked_step env' req_email req_password w' u' Hfind' Hlock').
Qed.

(** C1, witness: a wrong password on alice, and any password on the
    locked carol after dave's trace. *)
Lemma login_lockout_witness :
  (exists u',
      loginUser sample_env "alice@example.org" (Some "wrong") sample_world
      = (mkWorld (updateOne u' (users sample_world)) (outbox sample_world),
         Sent (mkResponse 400 (Message "Invalid credentials")))
      /\ find (by_email "alice@example.org") (updateOne u' (users sample_world))
         = Some u'
      /\ loginAttempts u' = loginAttempts alice + 1
      /\ (accountLocked u' = true <-> 5 <= loginAttempts alice + 1))
  /\ (let w' := serve sample_updateProfile sample_trace locked_world in
      loginUser sample_env "carol@example.org" (Some "letmein") w'
      = (w', Sent (mkResponse 401 (Message locked_message)))).
Proof.
  assert (NoDup (ids (users sample_world))) as Hnd1
    by (repeat constructor; simpl; intuition discriminate).
  assert (NoDup (ids (users locked_world))) as Hnd2
    by (repeat constructor; simpl; intuition discriminate).
  split.
  - exact (proj1 (login_lockout sample_updateProfile sample_updateProfile_keeps
                    sample_env "alice@example.org" sample_world alice
                    Hnd1 eq_refl)
             "wrong" "salt:secret" eq_refl eq_refl eq_refl eq_refl).
  - exact (proj2 (login_lockout sample_updateProfile sample_updateProfile_keeps
                    sample_env "carol@example.org" locked_world carol
                    Hnd2 eq_refl)
             eq_refl sample_trace sample_env (Some "letmein")).
Defined.

(** Five wrong passwords in a row lock alice; the sixth login, with her
    password, is refused. *)
Example five_strikes :
  let wrong := (sample_env, PostLogin "alice@example.org" (Some "wrong")) in
  let w5 := serve sample_updateProfile [wrong; wrong; wrong; wrong; wrong] sample_world in
  map (fun u => (loginAttempts u, accountLocked u)) (users w5) = [(5, true); (0, false)]
  /\ loginUser sample_env "alice@example.org" (Some "secret") w5
     = (w5, Sent (mkResponse 401 (Message locked_message)))
  /\ exists w r, loginUser sample_env "alice@example.org" (Some "secret") sample_world
                 = (w, Sent r) /\ status r = 200.
Proof.
  repeat split. do 2 eexists. split; reflexivity.
Qed.

(** ** OAuth sign-in *)

Ltac verified_solver :=
  unfold verified_step; cbn; split; [reflexivity|]; solve [auto].

Section OAuth.

Context {platform : Platform}.

(** Whatever the request, [googleLogin] keeps every document in place
    and keeps or raises its [isVerified]. *)
Lemma googleLogin_verified_evolves env idToken w :
  NoDup (ids (users w)) ->
  evolves_by verified_step (fun _ => True)
    (users w) (users (fst (googleLogin env idToken w))).
Proof.
  intros Hnd. unfold googleLogin, create. run_handler.
  crunch; evolve_leaf verified_solver ltac:(exact I).
Qed.

(** C7.  A Google sign-in for an email that has an account answers
    200 and stores for that account [isVerified] as it was, or [true]
    when the upstream [email_verified] flag is set; and no stored
    account that was verified before the call is unverified after it. *)
Theorem googleLogin_never_downgrades :
  forall env idToken payload w u,
    NoDup (ids (users w)) ->
    idToken <> "" ->
    verifyIdToken env idToken = Some (Some payload) ->
    find (by_email (g_email payload)) (users w) = Some u ->
    exists w' r u',
      googleLogin env (Some idToken) w = (w', Sent r)
      /\ status r = 200
      /\ find (by_id (_id u)) (users w') = Some u'
      /\ isVerified u' = isVerified u || g_email_verified payload
      /\ (isVerified u = true -> isVerified u' = true)
      /\ (forall v, In v (users w) ->
            exists v', find (by_id (_id v)) (users w') = Some v'
                       /\ (isVerified v = true -> isVerified v' = true)).
Proof.
  intros env idToken payload w u Hnd Hne Hverify Hfind.
  pose proof (googleLogin_verified_evolves env (Some idToken) w Hnd) as Hev.
  pose proof (find_by_id_found _ _ _ Hnd Hfind) as Hid.
  assert (forall v, In v (users w) ->
            exists v', find (by_id (_id v))
                         (users (fst (googleLogin env (Some idToken) w))) = Some v'
                       /\ (isVerified v = true -> isVerified v' = true)) as Hall.
  { intros v Hv.
    assert (forall a b, verified_step a b ->
                        by_id (_id v) b = by_id (_id v) a) as Hf.
    { intros a b [Hab _]. unfold by_id. now rewrite Hab. }
    destruct (evolves_by_find _ _ _ _ _ v Hf Hev (find_by_id_In v _ Hnd Hv))
      as (v' & Hv' & _ & Hmono).
    now exists v'. }
  revert Hev Hall. unfold googleLogin. run_handler.
  apply String.eqb_neq in Hne. rewrite Hne, Hverify. cbn. rewrite Hfind. cbn.
  destruct (truthy (googleId u)) eqn:Hg; cbn;
    destruct (isVerified u) eqn:Hv; cbn;
    destruct (g_email_verified payload) eqn:He; cbn;
    intros Hev Hall; do 3 eexists;
    (split; [reflexivity|]); (split; [reflexivity|]);
    (split;
     [ first [ exact Hid
             | apply (find_saved_twice u); [exact Hid|reflexivity|reflexivity]
             | apply (find_saved u); [exact Hid|reflexivity] ]
     | cbn; rewrite ?Hv; repeat split; auto ]).
Qed.

End OAuth.

(** C7, witness: bob, unverified, signs in with Google. *)
Lemma googleLogin_never_downgrades_witness :
  exists w' r u',
    googleLogin google_env (Some "g-token") sample_world = (w', Sent r)
    /\ status r = 200
    /\ find (by_id (_id bob)) (users w') = Some u'
    /\ isVerified u' = isVerified bob || g_email_verified bob_payload
    /\ (isVerified bob = true -> isVerified u' = true)
    /\ (forall v, In v (users sample_world) ->
          exists v', find (by_id (_id v)) (users w') = Some v'
                     /\ (isVerified v = true -> isVerified v' = true)).
Proof.
  assert (NoDup (ids (users sample_world))) as Hnd
    by (repeat constructor; simpl; intuition discriminate).
  assert ("g-token" <> "") as Hne by discriminate.
  exact (googleLogin_never_downgrades google_env "g-token" bob_payload
           sample_world bob Hnd Hne eq_refl eq_refl).
Defined.

(** ** Bearer authentication *)

Section Bearer.

Context {platform : Platform}.

Variable updateProfile : Env -> ObjectId -> Controller.

(** C10.  On each of the six routes behind [protect], a request whose
    token verifies and names a stored account with [isVerified] false
    is answered 401 'Email not verified'; the controller is not run and
    nothing is written.  No document has a [role], so the exception for
    admins never applies. *)
Theorem protected_routes_reject_unverified :
  forall env req route w token id u,
    bearer_token req = Some token ->
    token <> "" ->
    jwtVerify env token = Some id ->
    find (by_id id) (users w) = Some u ->
    isVerified u = false ->
    dispatch updateProfile env (Authenticated req route) w
    = (w, Sent (mkResponse 401 (Message "Email not verified")))
    /\ field_is (role u) "admin" = false.
Proof.
  intros env req route w token id u Htoken Hne Hjwt Hfind Hver.
  split; [|reflexivity].
  cbn [dispatch]. unfold guarded, protect. run_handler.
  rewrite Htoken. apply String.eqb_neq in Hne. rewrite Hne, Hjwt. cbn.
  rewrite Hfind, Hver. reflexivity.
Qed.

End Bearer.

(** C10, witness: bob, unverified, presents a valid token on
    POST /referral/share. *)
Lemma protected_routes_reject_unverified_witness :
  dispatch sample_updateProfile sample_env
    (Authenticated (mkHeaders (Some "Bearer jwt-bob") None) PostReferralShare)
    sample_world
  = (sample_world, Sent (mkResponse 401 (Message "Email not verified")))
  /\ field_is (role bob) "admin" = false.
Proof.
  assert ("jwt-bob" <> "") as Hne by discriminate.
  exact (protected_routes_reject_unverified sample_updateProfile sample_env
           (mkHeaders (Some "Bearer jwt-bob") None) PostReferralShare
           sample_world "jwt-bob" "id2" bob eq_refl Hne eq_refl eq_refl eq_refl).
Defined.

(** ** Verification tokens *)

(** A [save] that keeps the filter's verdict on the saved document does
    not disturb the lookup. *)
Lemma find_save_keeps (f : User -> bool) (doc old : User) (db : Store) :
  NoDup (ids db) -> find (by_id (_id doc)) db = Some old -> f doc = f old ->
  find f (updateOne doc db) = option_map (replace_doc doc) (find f db).
Proof.
  intros Hnd Hold Hf. rewrite updateOne_map by assumption.
  apply find_map_stable. intros x Hx. unfold replace_doc.
  destruct (by_id (_id doc) x) eqn:E; [|reflexivity].
  apply by_id_true in E.
  pose proof (find_some _ _ Hold) as [Hin Hid]. apply by_id_true in Hid.
  assert (x = old) as -> by (apply (same_id_eq db); auto; congruence).
  assumption.
Qed.


Section Verification.

Context {platform : Platform}.


(** C4 (amended).  A verification whose token matches an account stores
    the account with [isVerified] true and [verificationToken] absent,
    every other path as it was, [verificationTokenExpiry] included, and
    answers 200. *)
Theorem verifyEmail_clears_token_only :
  forall env token w u,
    find (fun v => field_is (verificationToken v) token) (users w) = Some u ->
    let u' := set_verificationToken None (set_isVerified true u) in
    verifyEmail env token w
    = (mkWorld (updateOne u' (users w)) (outbox w),
       Sent (mkResponse 200
               (VerifiedBody "Email verified successfully" (_id u) (email u)
                  (or_default (name u) "") true (generateToken env (_id u)))))
    /\ (NoDup (ids (users w)) ->
        find (by_id (_id u)) (updateOne u' (users w)) = Some u')
    /\ isVerified u' = true
    /\ verificationToken u' = None
    /\ verificationTokenExpiry u' = verificationTokenExpiry u.
Proof.
  intros env token w u Hfind u'. split; [|split; [|repeat split]].
  - unfold verifyEmail. run_handler. rewrite Hfind. reflexivity.
  - intros Hnd. apply (find_saved u); [|reflexivity].
    exact (find_by_id_found _ _ _ Hnd Hfind).
Qed.

End Verification.



(** C4, witness: bob verifies with his token. *)
Lemma verifyEmail_clears_token_only_witness :
  let u' := set_verificationToken None (set_isVerified true bob) in
  verifyEmail sample_env "t0ken" sample_world
  = (mkWorld (updateOne u' (users sample_world)) (outbox sample_world),
     Sent (mkResponse 200
             (VerifiedBody "Email verified successfully" "id2" "bob@example.org"
                "Bob" true "jwt-id2")))
  /\ (NoDup (ids (users sample_world)) ->
      find (by_id "id2") (updateOne u' (users sample_world)) = Some u')
  /\ isVerified u' = true
  /\ verificationToken u' = None
  /\ verificationTokenExpiry u' = verificationTokenExpiry bob.
Proof.
  exact (verifyEmail_clears_token_only sample_env "t0ken" sample_world bob eq_refl).
Defined.

(** C4 as stated fails: after bob's verification the stored account
    still carries the expiry of the consumed token. *)
Lemma verifyEmail_keeps_expiry :
  exists w' r u',
    verifyEmail sample_env "t0ken" sample_world = (w', Sent r)
    /\ status r = 200
    /\ find (by_id "id2") (users w') = Some u'
    /\ isVerified u' = true
    /\ verificationToken u' = None
    /\ verificationTokenExpiry u' = Some 5000
    /\ verificationTokenExpiry u' <> None.
Proof.
  do 3 eexists. repeat split; try reflexivity. discriminate.
Qed.

(** ** Password reset *)

Section Reset.

Context {platform : Platform}.

(** C5.  A reset whose token matches an account with an expiry after
    now, and that carries a password, stores the account with the new
    hash and without [resetPasswordToken] and [resetPasswordExpiry];
    [loginAttempts], [accountLocked] and every other path of the account
    are as before, every other account is untouched, no mail is sent,
    and the answer is 200. *)
Theorem resetPassword_frame :
  forall env token pw w u,
    NoDup (ids (users w)) ->
    find (by_reset_token env token) (users w) = Some u ->
    let u' :=
      mkUser (_id u) (name u) (email u) (Some (bcrypt_hash pw (genSalt env)))
        (profilePicture u) (isVerified u) (googleId u) (sawabPoints u)
        (referralCode u) (referredBy u) (referralCount u)
        (verificationToken u) (verificationTokenExpiry u) None None
        (loginAttempts u) (accountLocked u) (lastLogin u) in
    exists db',
      resetPassword env token (Some pw) w
      = (mkWorld db' (outbox w),
         Sent (mkResponse 200 (Message "Password reset successful")))
      /\ db' = map (replace_doc u') (users w)
      /\ find (by_id (_id u)) db' = Some u'
      /\ (forall i, i <> _id u -> find (by_id i) db' = find (by_id i) (users w))
      /\ loginAttempts u' = loginAttempts u
      /\ accountLocked u' = accountLocked u.
Proof.
  intros env token pw w u Hnd Hfind u'.
  exists (updateOne u' (users w)).
  split; [|split; [|split; [|split; [|split; reflexivity]]]].
  - unfold resetPassword. run_handler. rewrite Hfind. reflexivity.
  - now apply updateOne_map.
  - apply (find_saved u); [|reflexivity].
    exact (find_by_id_found _ _ _ Hnd Hfind).
  - intros i Hi. apply find_by_id_updateOne_other. cbn. congruence.
Qed.

End Reset.

(** C5, witness: the locked erin resets her password and stays locked,
    with her counter at 5. *)
Lemma resetPassword_frame_witness :
  exists db',
    resetPassword sample_env "r3set" (Some "new") reset_world
    = (mkWorld db' [],
       Sent (mkResponse 200 (Message "Password reset successful")))
    /\ find (by_id "id5") db'
       = Some (mkUser "id5" (Some "Erin") "erin@example.org" (Some "salt:new") ""
                 true None 7 None None 0 None None None None 5 true None)
    /\ find (by_id "id1") db' = Some alice.
Proof.
  assert (NoDup (ids (users reset_world))) as Hnd
    by (repeat constructor; simpl; intuition discriminate).
  assert (find (by_reset_token sample_env "r3set") (users reset_world) = Some erin)
    as Hfind by reflexivity.
  destruct (resetPassword_frame sample_env "r3set" "new" reset_world erin Hnd Hfind)
    as (db' & Hrun & _ & Hsaved & Hothers & _).
  exists db'. split; [exact Hrun|]. split; [exact Hsaved|].
  rewrite (Hothers "id1"); [reflexivity|discriminate].
Defined.

(** ** Referral *)

Section Referral.

Context {platform : Platform}.

(** C6.  When the code belongs to another account and the caller has
    no [referredBy], applying it stores the referrer with 5 more points
    and one more referral, the caller with 2 more points and [referredBy]
    set to the referrer's id, leaves the other accounts untouched and
    answers 200; applying the code again as the same caller answers 400
    'You have already used a referral code' and writes nothing. *)
Theorem applyReferralCode_awards_once :
  forall env req_user_id code w referrer caller,
    NoDup (ids (users w)) ->
    find (fun v => field_is (referralCode v) code) (users w) = Some referrer ->
    _id referrer <> req_user_id ->
    find (by_id req_user_id) (users w) = Some caller ->
    referredBy caller = None ->
    let referrer' :=
      set_referralCount (referralCount referrer + 1)
        (set_sawabPoints (sawabPoints referrer + 5) referrer) in
    let caller' :=
      set_sawabPoints (sawabPoints caller + 2)
        (set_referredBy (Some (_id referrer)) caller) in
    exists w',
      applyReferralCode env req_user_id code w
      = (w', Sent (mkResponse 200
                     (PointsMessageBody "Referral code applied successfully"
                        (sawabPoints caller + 2))))
      /\ find (by_id (_id referrer)) (users w') = Some referrer'
      /\ find (by_id req_user_id) (users w') = Some caller'
      /\ (forall i, i <> _id referrer -> i <> req_user_id ->
            find (by_id i) (users w') = find (by_id i) (users w))
      /\ (forall env',
            applyReferralCode env' req_user_id code w'
            = (w', Sent (mkResponse 400
                           (Message "You have already used a referral code")))).
Proof.
  intros env uid code w referrer caller Hnd Hcode Hself Hcaller Hnone
         referrer' caller'.
  pose proof (find_by_id_found _ _ _ Hnd Hcode) as Hrid.
  pose proof (find_some _ _ Hcaller) as [_ Hcid]. apply by_id_true in Hcid.
  set (db1 := updateOne referrer' (users w)).
  set (db2 := updateOne caller' db1).
  assert (NoDup (ids db1)) as Hnd1 by (unfold db1; now rewrite ids_updateOne).
  assert (find (by_id uid) db1 = Some caller) as Hcaller1.
  { unfold db1. rewrite find_by_id_updateOne_other; [assumption|exact Hself]. }
  assert (find (by_id (_id referrer)) db1 = Some referrer') as Hrid1.
  { apply (find_saved referrer); [exact Hrid|reflexivity]. }
  assert (find (by_id (_id referrer)) db2 = Some referrer') as Hrid2.
  { unfold db2. rewrite find_by_id_updateOne_other; [assumption|].
    cbn. congruence. }
  assert (find (by_id uid) db2 = Some caller') as Hcaller2.
  { rewrite <- Hcid in *. apply (find_saved caller); [exact Hcaller1|reflexivity]. }
  assert (find (fun v => field_is (referralCode v) code) db2 = Some referrer')
    as Hcode2.
  { unfold db2.
    rewrite (find_save_keeps _ caller' caller db1 Hnd1);
      [| cbn; now rewrite Hcid | reflexivity].
    unfold db1.
    rewrite (find_save_keeps _ referrer' referrer (users w) Hnd);
      [| exact Hrid | reflexivity].
    rewrite Hcode. cbn. unfold replace_doc. cbn.
    rewrite (by_id_refl referrer).
    assert (by_id (_id caller) referrer' = false) as ->; [|reflexivity].
    apply by_id_false. cbn. congruence. }
  assert ((_id referrer =? uid)%string = false) as Hneq
    by now apply String.eqb_neq.
  exists (mkWorld db2 (outbox w)).
  split; [|split; [exact Hrid2|split; [exact Hcaller2|split]]].
  - unfold applyReferralCode. run_handler.
    rewrite Hcode, Hneq. cbn. rewrite Hcaller. cbn. rewrite Hnone. reflexivity.
  - intros i Hi1 Hi2. cbn. unfold db2, db1.
    rewrite !find_by_id_updateOne_other; [reflexivity| |]; cbn; congruence.
  - intros env'. unfold applyReferralCode. run_handler.
    rewrite Hcode2. cbn. rewrite Hneq. cbn. rewrite Hcaller2. reflexivity.
Qed.

End Referral.

(** C6, witness: frank applies alice's code, twice. *)
Lemma applyReferralCode_awards_once_witness :
  exists w',
    applyReferralCode sample_env "id6" "ID1A1B2C" referral_world
    = (w', Sent (mkResponse 200
                   (PointsMessageBody "Referral code applied successfully" 5)))
    /\ option_map (fun v => (sawabPoints v, referralCount v))
         (find (by_id "id1") (users w')) = Some (5, 1)
    /\ option_map (fun v => (sawabPoints v, referredBy v))
         (find (by_id "id6") (users w')) = Some (5, Some "id1")
    /\ applyReferralCode sample_env "id6" "ID1A1B2C" w'
       = (w', Sent (mkResponse 400
                      (Message "You have already used a referral code"))).
Proof.
  assert (NoDup (ids (users referral_world))) as Hnd
    by (repeat constructor; simpl; intuition discriminate).
  assert (find (fun v => field_is (referralCode v) "ID1A1B2C") (users referral_world)
          = Some alice) as Hcode by reflexivity.
  assert (_id alice <> "id6") as Hself by discriminate.
  assert (find (by_id "id6") (users referral_world) = Some frank)
    as Hcaller by reflexivity.
  destruct (applyReferralCode_awards_once sample_env "id6" "ID1A1B2C"
              referral_world alice frank Hnd Hcode Hself Hcaller eq_refl)
    as (w' & Hrun & Hreferrer & Hfrank & _ & Hagain).
  exists w'. split; [exact Hrun|].
  split; [exact (f_equal (option_map _) Hreferrer)|].
  split; [exact (f_equal (option_map _) Hfrank)|].
  exact (Hagain sample_env).
Defined.

(** * Further properties of the controllers *)

(** ** Registration and first login *)

Section RegistrationMore.

Context {platform : Platform}.

Lemma find_none_existsb (f : User -> bool) (db : Store) :
  find f db = None -> existsb f db = false.
Proof.
  intros H. induction db as [|x rest IH]; simpl in *; [reflexivity|].
  destruct (f x); [discriminate|]. now apply IH.
Qed.

(** The registration that goes through, as [register] computes it. *)
Lemma register_success_step :
  forall env req_name req_email req_password w,
    req_email <> "" -> req_password <> "" ->
    find (by_email req_email) (users w) = None ->
    castEmail req_email <> "" ->
    bcrypt_hash req_password (genSalt env) <> "" ->
    existsb (by_id (newObjectId env)) (users w) = false ->
    let doc :=
      mkUser (newObjectId env) (option_map js_trim req_name)
        (castEmail req_email)
        (Some (bcrypt_hash req_password (genSalt env))) "" false None 0 None
        None 0 (Some (randomHex env)) (Some (now env + day_ms)) None None 0
        false None in
    register env req_name (Some req_email) (Some req_password) w
    = (mkWorld (users w ++ [doc])
         (outbox w ++ [mkMail req_email "Verify your email address"
                         (verificationUrl env (randomHex env))]),
       Sent (mkResponse 201
               (Message "User registered successfully. Please check your email to verify your account."))).
Proof.
  intros env req_name req_email req_password w He Hp Hfind Hcast Hhash Hid doc.
  apply String.eqb_neq in He, Hp, Hcast, Hhash.
  pose proof (find_none_existsb _ _ Hfind) as Hmail.
  unfold by_email in Hmail.
  unfold register, create, sendMail. run_handler.
  rewrite He, Hp. cbn. rewrite Hfind. cbn.
  rewrite Hcast, Hhash. cbn. rewrite Hid, Hmail. cbn.
  destruct (sendMailOk env); reflexivity.
Qed.

(** X1.  A registration with a non-empty email and password, for an
    email that no account has, appends exactly one account: unverified,
    unlocked, with the hash of the password, the drawn verification token
    and an expiry 24 h ahead.  The verification mail is handed to the
    transport and the answer is 201, whether or not the transport
    accepts the mail.  Afterwards the email finds the new account and
    every id finds the account it found before. *)
Theorem register_creates_account :
  forall env req_name req_email req_password w,
    req_email <> "" -> req_password <> "" ->
    find (by_email req_email) (users w) = None ->
    castEmail req_email <> "" ->
    bcrypt_hash req_password (genSalt env) <> "" ->
    existsb (by_id (newObjectId env)) (users w) = false ->
    let doc :=
      mkUser (newObjectId env) (option_map js_trim req_name)
        (castEmail req_email)
        (Some (bcrypt_hash req_password (genSalt env))) "" false None 0 None
        None 0 (Some (randomHex env)) (Some (now env + day_ms)) None None 0
        false None in
    let w' :=
      mkWorld (users w ++ [doc])
        (outbox w ++ [mkMail req_email "Verify your email address"
                        (verificationUrl env (randomHex env))]) in
    register env req_name (Some req_email) (Some req_password) w
    = (w', Sent (mkResponse 201
                   (Message "User registered successfully. Please check your email to verify your account.")))
    /\ find (by_email req_email) (users w') = Some doc
    /\ (forall i v, find (by_id i) (users w) = Some v ->
                    find (by_id i) (users w') = Some v).
Proof.
  intros env req_name req_email req_password w He Hp Hfind Hcast Hhash Hid
         doc w'.
  split; [|split].
  - now apply register_success_step.
  - unfold w'. cbn [users]. rewrite find_app_users, Hfind. simpl.
    unfold by_email, doc. cbn. now rewrite String.eqb_refl.
  - intros i v Hv. unfold w'. cbn [users]. now rewrite find_app_users, Hv.
Qed.

(** X2.  A registration without email or without password, or with an
    empty one, is answered 400 'Please provide email and password';
    nothing is stored and no mail is sent, whatever the collection
    holds. *)
Theorem register_rejects_missing_input :
  forall env req_name req_email req_password w,
    truthy req_email = false \/ truthy req_password = false ->
    register env req_name req_email req_password w
    = (w, Sent (mkResponse 400 (Message "Please provide email and password"))).
Proof.
  intros env req_name req_email req_password w H.
  unfold register. run_handler.
  destruct req_email as [e|], req_password as [p|]; cbn in *;
    try reflexivity.
  destruct (e =? "")%string, (p =? "")%string; cbn in *;
    try reflexivity.
  destruct H; discriminate.
Qed.

(** The account after a login with the right password, as [loginUser]
    writes it. *)
Lemma login_success_step :
  forall env req_email pw w u h,
    find (by_email req_email) (users w) = Some u ->
    accountLocked u = false ->
    isVerified u = true \/ truthy (googleId u) = true ->
    password u = Some h ->
    bcrypt_compare pw h = true ->
    let u' := set_lastLogin (Some (now env)) (set_loginAttempts 0 u) in
    loginUser env req_email (Some pw) w
    = (mkWorld (updateOne u' (users w)) (outbox w),
       Sent (mkResponse 200
               (SessionBody (generateToken env (_id u))
                  (mkProfile (_id u) (email u) (name u) (profilePicture u)
                     (isVerified u))))).
Proof.
  intros env req_email pw w u h Hfind Hlock Hver Hpw Hcmp u'.
  unfold loginUser. run_handler.
  rewrite Hfind, Hlock.
  assert (negb (isVerified u) && negb (truthy (googleId u)) = false) as ->.
  { destruct Hver as [-> | ->]; cbn; [reflexivity|]. apply andb_false_r. }
  cbn. rewrite Hpw. cbn. rewrite Hcmp. cbn. reflexivity.
Qed.

(** X3.  A login with the right password on an unlocked account that is
    verified or linked to Google stores the account with [loginAttempts]
    back at 0 and [lastLogin] at the clock, every other path as it was,
    sends no mail and answers 200 with a token for the account's id. *)
Theorem login_success_resets_counter :
  forall env req_email pw w u h,
    NoDup (ids (users w)) ->
    find (by_email req_email) (users w) = Some u ->
    accountLocked u = false ->
    isVerified u = true \/ truthy (googleId u) = true ->
    password u = Some h ->
    bcrypt_compare pw h = true ->
    exists db' token,
      loginUser env req_email (Some pw) w
      = (mkWorld db' (outbox w),
         Sent (mkResponse 200
                 (SessionBody token
                    (mkProfile (_id u) (email u) (name u) (profilePicture u)
                       (isVerified u)))))
      /\ token = generateToken env (_id u)
      /\ find (by_email req_email) db'
         = Some (mkUser (_id u) (name u) (email u) (password u)
                   (profilePicture u) (isVerified u) (googleId u)
                   (sawabPoints u) (referralCode u) (referredBy u)
                   (referralCount u) (verificationToken u)
                   (verificationTokenExpiry u) (resetPasswordToken u)
                   (resetPasswordExpiry u) 0 false (Some (now env)))
      /\ (forall i, i <> _id u -> find (by_id i) db' = find (by_id i) (users w)).
Proof.
  intros env req_email pw w u h Hnd Hfind Hlock Hver Hpw Hcmp.
  rewrite (login_success_step env req_email pw w u h) by assumption.
  do 2 eexists. split; [reflexivity|]. split; [reflexivity|].
  pose proof (find_some _ _ Hfind) as [_ Hmail].
  split.
  - etransitivity.
    + apply (find_after_save _ _ u); [exact Hnd|exact Hfind|reflexivity|exact Hmail].
    + unfold set_lastLogin, set_loginAttempts. cbn. now rewrite Hlock.
  - intros i Hi. apply find_by_id_updateOne_other. cbn. congruence.
Qed.

(** X4.  A login that carries no password, for an unlocked account that
    is verified or linked to Google, is answered 500 'Server error' (the
    comparison throws) and stores nothing: the attempt is not counted.
    The same request for an email without account is answered 400. *)
Theorem login_without_password :
  forall env req_email w,
    (forall u,
        find (by_email req_email) (users w) = Some u ->
        accountLocked u = false ->
        isVerified u = true \/ truthy (googleId u) = true ->
        loginUser env req_email None w
        = (w, Sent (mkResponse 500 (Message "Server error"))))
    /\ (find (by_email req_email) (users w) = None ->
        loginUser env req_email None w
        = (w, Sent (mkResponse 400 (Message "Invalid credentials")))).
Proof.
  intros env req_email w. split.
  - intros u Hfind Hlock Hver. unfold loginUser. run_handler.
    rewrite Hfind, Hlock.
    assert (negb (isVerified u) && negb (truthy (googleId u)) = false) as ->.
    { destruct Hver as [-> | ->]; cbn; [reflexivity|]. apply andb_false_r. }
    cbn. destruct w; reflexivity.
  - intros Hfind. unfold loginUser. run_handler. now rewrite Hfind.
Qed.

End RegistrationMore.

Section RoundTrip.

Context {platform : Platform}.

Lemma find_last (f : User -> bool) (db : Store) (doc : User) :
  find f db = None -> f doc = true -> find f (db ++ [doc]) = Some doc.
Proof.
  intros Hnone Hdoc. rewrite find_app_users, Hnone. simpl. now rewrite Hdoc.
Qed.



End RoundTrip.

(** ** Tokens are consumed *)

(** After a [save] of a document that the filter rejects, a filter that
    rejects every other document finds nothing. *)
Lemma find_none_after_save (f : User -> bool) (doc : User) (db : Store) :
  NoDup (ids db) -> f doc = false ->
  (forall v, In v db -> _id v <> _id doc -> f v = false) ->
  find f (updateOne doc db) = None.
Proof.
  intros Hnd Hdoc Hothers. apply find_none_iff. intros v Hv.
  destruct (In_updateOne_nodup _ _ _ Hnd Hv) as [->|[Hin Hid]]; auto.
Qed.

Lemma field_is_true (o : option string) (s : string) :
  field_is o s = true <-> o = Some s.
Proof.
  destruct o as [t|]; cbn; [|split; discriminate].
  rewrite String.eqb_eq. split; congruence.
Qed.

Section Tokens.

Context {platform : Platform}.

(** X6.  A verification token works once.  A token that no account
    holds is answered 400 'Invalid verification token' and nothing is
    written; and after a verification that succeeded, the same token,
    held by that account only, is answered 400 in the same way. *)
Theorem verifyEmail_token_single_use :
  forall env env' token w,
    (find (fun v => field_is (verificationToken v) token) (users w) = None ->
     verifyEmail env token w
     = (w, Sent (mkResponse 400 (Message "Invalid verification token"))))
    /\ (forall u,
          NoDup (ids (users w)) ->
          find (fun v => field_is (verificationToken v) token) (users w) = Some u ->
          (forall v, In v (users w) -> verificationToken v = Some token -> v = u) ->
          let w' := fst (verifyEmail env token w) in
          verifyEmail env' token w'
          = (w', Sent (mkResponse 400 (Message "Invalid verification token")))).
Proof.
  intros env env' token w. split.
  - intros Hnone. unfold verifyEmail. run_handler. rewrite Hnone.
    destruct w; reflexivity.
  - intros u Hnd Hfind Huniq w'.
    assert (find (fun v => field_is (verificationToken v) token) (users w') = None)
      as Hnone.
    { unfold w', verifyEmail. run_handler. rewrite Hfind. cbn.
      apply find_none_after_save; [assumption|reflexivity|].
      intros v Hv Hid. cbn in Hid.
      destruct (field_is (verificationToken v) token) eqn:E; [|reflexivity].
      apply field_is_true in E. rewrite (Huniq v Hv E) in Hid.
      contradiction. }
    unfold verifyEmail at 1. run_handler. rewrite Hnone.
    destruct w'; reflexivity.
Qed.

(** A token without a live expiry is refused. *)
Lemma resetPassword_dead_token :
  forall env token req_password w,
    (forall v, In v (users w) -> resetPasswordToken v = Some token ->
               match resetPasswordExpiry v with
               | Some expiry => expiry <= now env
               | None => True
               end) ->
    resetPassword env token req_password w
    = (w, Sent (mkResponse 400 (Message "Invalid or expired reset token"))).
Proof.
  intros env token req_password w Hexp.
  assert (find (by_reset_token env token) (users w) = None) as Hnone.
  { apply find_none_iff. intros v Hv. unfold by_reset_token.
    destruct (field_is (resetPasswordToken v) token) eqn:E; [|reflexivity].
    apply field_is_true in E. specialize (Hexp v Hv E). cbn.
    destruct (resetPasswordExpiry v) as [expiry|]; [|reflexivity].
    apply Z.ltb_ge. exact Hexp. }
  unfold resetPassword. run_handler. rewrite Hnone. destruct w; reflexivity.
Qed.

(** X7.  A reset token is good exactly until its expiry.  A reset
    whose token is held only by accounts without expiry or with an
    expiry at or before the clock is answered 400 'Invalid or expired
    reset token', whatever the password, and nothing is written: a token
    is dead from the very millisecond of its expiry.  A reset that
    carries a password and whose token is held by an account with an
    expiry after the clock is answered 200. *)
Theorem resetPassword_rejects_expired :
  forall env token w,
    (forall req_password,
        (forall v, In v (users w) -> resetPasswordToken v = Some token ->
                   match resetPasswordExpiry v with
                   | Some expiry => expiry <= now env
                   | None => True
                   end) ->
        resetPassword env token req_password w
        = (w, Sent (mkResponse 400 (Message "Invalid or expired reset token"))))
    /\ (forall pw v expiry,
          In v (users w) -> resetPasswordToken v = Some token ->
          resetPasswordExpiry v = Some expiry -> now env < expiry ->
          snd (resetPassword env token (Some pw) w)
          = Sent (mkResponse 200 (Message "Password reset successful"))).
Proof.
  intros env token w. split.
  - intros req_password Hdead. now apply resetPassword_dead_token.
  - intros pw v expiry Hin Htok Hexp Hnow.
    destruct (find (by_reset_token env token) (users w)) as [u|] eqn:Hfind.
    + unfold resetPassword. run_handler. rewrite Hfind. reflexivity.
    + pose proof (proj1 (find_none_iff _ _) Hfind v Hin) as Hv.
      unfold by_reset_token in Hv. rewrite Htok, Hexp in Hv. cbn in Hv.
      rewrite String.eqb_refl in Hv. cbn in Hv.
      apply Z.ltb_ge in Hv. lia.
Qed.

(** X8.  A reset token works once: after a reset that succeeded, the
    same token, held by that account only, is answered 400 at any later
    request, with any clock and any password, and nothing is written. *)
Theorem resetPassword_token_single_use :
  forall env env' token pw req_password w u,
    NoDup (ids (users w)) ->
    find (by_reset_token env token) (users w) = Some u ->
    (forall v, In v (users w) -> resetPasswordToken v = Some token -> v = u) ->
    let w' := fst (resetPassword env token (Some pw) w) in
    snd (resetPassword env token (Some pw) w)
    = Sent (mkResponse 200 (Message "Password reset successful"))
    /\ resetPassword env' token req_password w'
       = (w', Sent (mkResponse 400 (Message "Invalid or expired reset token"))).
Proof.
  intros env env' token pw req_password w u Hnd Hfind Huniq w'.
  split.
  - unfold resetPassword. run_handler. rewrite Hfind. reflexivity.
  - apply resetPassword_dead_token. intros v Hv Htok.
    unfold w', resetPassword in Hv. revert Hv. run_handler.
    rewrite Hfind. cbn. intros Hv.
    destruct (In_updateOne_nodup _ _ _ Hnd Hv) as [->|[Hin Hid]].
    + discriminate Htok.
    + cbn in Hid. rewrite (Huniq v Hin Htok) in Hid. contradiction.
Qed.

(** X9.  A password reset does not lift a lock: after a reset that
    succeeded on a locked account, a login for that account with the new
    password is still answered 401 with the lock message. *)
Theorem resetPassword_keeps_lock :
  forall env env' token pw req_email req_password w u,
    NoDup (ids (users w)) ->
    find (by_reset_token env token) (users w) = Some u ->
    find (by_email req_email) (users w) = Some u ->
    accountLocked u = true ->
    let w' := fst (resetPassword env token (Some pw) w) in
    snd (resetPassword env token (Some pw) w)
    = Sent (mkResponse 200 (Message "Password reset successful"))
    /\ loginUser env' req_email req_password w'
       = (w', Sent (mkResponse 401 (Message locked_message))).
Proof.
  intros env env' token pw req_email req_password w u Hnd Hfind Hmail Hlock w'.
  split.
  - unfold resetPassword. run_handler. rewrite Hfind. reflexivity.
  - pose proof (find_some _ _ Hmail) as [_ Hb].
    apply (login_locked_step env' req_email req_password w'
             (set_resetPasswordExpiry None
                (set_resetPasswordToken None
                   (set_password (Some (bcrypt_hash pw (genSalt env))) u))));
      [|exact Hlock].
    unfold w', resetPassword. run_handler. rewrite Hfind. cbn.
    apply (find_after_save _ _ u); [exact Hnd|exact Hmail|reflexivity|exact Hb].
Qed.

End Tokens.

(** ** Forgotten passwords and resent verifications *)

(** When the filter rejects every other document, the lookup after a
    [save] of a copy that passes it returns the copy. *)
Lemma find_unique_after_save (f : User -> bool) (doc u : User) (db : Store) :
  NoDup (ids db) -> In u db -> _id doc = _id u -> f doc = true ->
  (forall v, In v db -> v <> u -> f v = false) ->
  find f (updateOne doc db) = Some doc.
Proof.
  intros Hnd Hin Hid Hdoc Hothers. rewrite updateOne_map by assumption.
  induction db as [|x rest IH]; cbn [map find]; [contradiction|].
  inversion Hnd as [|a l Hnotin Hnd']; subst.
  destruct (by_id (_id doc) x) eqn:E.
  - assert (replace_doc doc x = doc) as -> by (unfold replace_doc; now rewrite E).
    now rewrite Hdoc.
  - assert (replace_doc doc x = x) as -> by (unfold replace_doc; now rewrite E).
    assert (x <> u) as Hxu.
    { intros ->. apply by_id_false in E. congruence. }
    destruct Hin as [->|Hin]; [contradiction|].
    rewrite (Hothers x (or_introl eq_refl) Hxu).
    apply IH; auto. intros v Hv. apply Hothers. now right.
Qed.

Section Forgot.

Context {platform : Platform}.

(** The two outcomes of [forgotPassword], as it computes them. *)
Lemma forgotPassword_step :
  forall env req_email w,
    (find (by_email req_email) (users w) = None ->
     forgotPassword env req_email w
     = (w, Sent (mkResponse 404 (Message "User not found"))))
    /\ (forall u,
          find (by_email req_email) (users w) = Some u ->
          let u' :=
            mkUser (_id u) (name u) (email u) (password u) (profilePicture u)
              (isVerified u) (googleId u) (sawabPoints u) (referralCode u)
              (referredBy u) (referralCount u) (verificationToken u)
              (verificationTokenExpiry u) (Some (randomHex env))
              (Some (now env + hour_ms)) (loginAttempts u) (accountLocked u)
              (lastLogin u) in
          forgotPassword env req_email w
          = (mkWorld (updateOne u' (users w))
               (outbox w ++ [mkMail req_email "Password Reset Request"
                               (resetUrl env (randomHex env))]),
             Sent (if sendMailOk env
                   then mkResponse 200 (Message "Password reset email sent")
                   else mkResponse 500 (Message "Server error")))).
Proof.
  intros env req_email w. split.
  - intros Hnone. unfold forgotPassword. run_handler. rewrite Hnone.
    destruct w; reflexivity.
  - intros u Hfind u'. unfold forgotPassword, sendMail. run_handler.
    rewrite Hfind. cbn. destruct (sendMailOk env); reflexivity.
Qed.

(** X10.  A forgotten-password request for an email without account is
    answered 404 and writes nothing.  For an email with an account it
    stores the drawn token with an expiry one hour ahead, changes no
    other path, and hands the reset mail to the transport; the answer is
    200 when the transport accepts the mail and 500 when it does not,
    and in both cases the token is what the account holds afterwards. *)
Theorem forgotPassword_issues_token :
  forall env req_email w,
    (find (by_email req_email) (users w) = None ->
     forgotPassword env req_email w
     = (w, Sent (mkResponse 404 (Message "User not found"))))
    /\ (forall u,
          NoDup (ids (users w)) ->
          find (by_email req_email) (users w) = Some u ->
          let u' :=
            mkUser (_id u) (name u) (email u) (password u) (profilePicture u)
              (isVerified u) (googleId u) (sawabPoints u) (referralCode u)
              (referredBy u) (referralCount u) (verificationToken u)
              (verificationTokenExpiry u) (Some (randomHex env))
              (Some (now env + hour_ms)) (loginAttempts u) (accountLocked u)
              (lastLogin u) in
          exists db',
            forgotPassword env req_email w
            = (mkWorld db'
                 (outbox w ++ [mkMail req_email "Password Reset Request"
                                 (resetUrl env (randomHex env))]),
               Sent (if sendMailOk env
                     then mkResponse 200 (Message "Password reset email sent")
                     else mkResponse 500 (Message "Server error")))
            /\ find (by_email req_email) db' = Some u'
            /\ (forall i, i <> _id u ->
                  find (by_id i) db' = find (by_id i) (users w))).
Proof.
  intros env req_email w.
  destruct (forgotPassword_step env req_email w) as [Hnone Hsome].
  split; [exact Hnone|].
  intros u Hnd Hfind u'.
  pose proof (find_some _ _ Hfind) as [_ Hmail].
  exists (updateOne u' (users w)). split; [exact (Hsome u Hfind)|]. split.
  - apply (find_after_save _ _ u); auto.
  - intros i Hi. apply find_by_id_updateOne_other. cbn. congruence.
Qed.

(** X11.  Forgotten password, reset, login.  On an unlocked account
    that is verified or linked to Google, a reset with the token that
    the forgotten-password request drew, made less than an hour later,
    answers 200, and a login with the new password then answers 200.
    The token is assumed new to the collection and bcrypt to accept the
    password it hashed. *)
Theorem password_reset_round_trip :
  forall env1 env2 env3 req_email pw w u,
    NoDup (ids (users w)) ->
    find (by_email req_email) (users w) = Some u ->
    accountLocked u = false ->
    isVerified u = true \/ truthy (googleId u) = true ->
    (forall v, In v (users w) -> v <> u ->
               resetPasswordToken v <> Some (randomHex env1)) ->
    now env2 < now env1 + hour_ms ->
    bcrypt_compare pw (bcrypt_hash pw (genSalt env2)) = true ->
    let w1 := fst (forgotPassword env1 req_email w) in
    let w2 := fst (resetPassword env2 (randomHex env1) (Some pw) w1) in
    snd (resetPassword env2 (randomHex env1) (Some pw) w1)
    = Sent (mkResponse 200 (Message "Password reset successful"))
    /\ exists w3 b,
         loginUser env3 req_email (Some pw) w2 = (w3, Sent (mkResponse 200 b)).
Proof.
  intros env1 env2 env3 req_email pw w u Hnd Hfind Hlock Hver Hfresh Hnow Hbcrypt
         w1 w2.
  pose proof (find_some _ _ Hfind) as [Hin Hmail].
  destruct (forgotPassword_step env1 req_email w) as [_ Hforgot].
  specialize (Hforgot u Hfind). cbv zeta in Hforgot.
  set (u1 := mkUser _ _ _ _ _ _ _ _ _ _ _ _ _ _ _ _ _ _) in Hforgot.
  assert (users w1 = updateOne u1 (users w)) as Hw1
    by (unfold w1; now rewrite Hforgot).
  assert (NoDup (ids (users w1))) as Hnd1
    by (rewrite Hw1, ids_updateOne; exact Hnd).
  assert (find (by_reset_token env2 (randomHex env1)) (users w1) = Some u1)
    as Hreset.
  { rewrite Hw1. apply (find_unique_after_save _ _ u); auto.
    - unfold by_reset_token, u1. cbn. rewrite String.eqb_refl. cbn.
      now apply Z.ltb_lt.
    - intros v Hv Hvu. unfold by_reset_token.
      destruct (field_is (resetPasswordToken v) (randomHex env1)) eqn:E;
        [|reflexivity].
      apply field_is_true in E. now destruct (Hfresh v Hv Hvu). }
  assert (find (by_email req_email) (users w1) = Some u1) as Hmail1.
  { rewrite Hw1. apply (find_after_save _ _ u); auto. }
  set (u2 := set_resetPasswordExpiry None
               (set_resetPasswordToken None
                  (set_password (Some (bcrypt_hash pw (genSalt env2))) u1))).
  assert (resetPassword env2 (randomHex env1) (Some pw) w1
          = (mkWorld (updateOne u2 (users w1)) (outbox w1),
             Sent (mkResponse 200 (Message "Password reset successful"))))
    as Hrun.
  { unfold resetPassword. run_handler. rewrite Hreset. reflexivity. }
  split; [now rewrite Hrun|].
  unfold w2. rewrite Hrun. cbn [fst].
  do 2 eexists.
  apply (login_success_step env3 req_email pw _ u2
           (bcrypt_hash pw (genSalt env2))); auto.
  cbn [users]. apply (find_after_save _ _ u1); auto.
Qed.

(** X12.  A request to resend the verification mail is answered 400
    without an email, 404 for an email without account and 400 for a
    verified account, and then writes nothing.  For an unverified
    account it stores the drawn token and leaves the stored expiry as it
    was; the answer is 200 when the transport accepts the mail and 500
    when it does not, with the new token stored in both cases. *)
Theorem resendVerificationEmail_rotates_token_only :
  forall env w,
    (forall req_email,
        truthy req_email = false ->
        resendVerificationEmail env req_email w
        = (w, Sent (mkResponse 400 (Message "Email is required"))))
    /\ (forall e,
          e <> "" -> find (by_email e) (users w) = None ->
          resendVerificationEmail env (Some e) w
          = (w, Sent (mkResponse 404 (Message "User not found"))))
    /\ (forall e u,
          e <> "" -> find (by_email e) (users w) = Some u ->
          isVerified u = true ->
          resendVerificationEmail env (Some e) w
          = (w, Sent (mkResponse 400 (Message "Email is already verified"))))
    /\ (forall e u,
          e <> "" -> find (by_email e) (users w) = Some u ->
          isVerified u = false ->
          let u' := set_verificationToken (Some (randomHex env)) u in
          resendVerificationEmail env (Some e) w
          = (mkWorld (updateOne u' (users w))
               (outbox w ++ [mkMail e "Verify your email address"
                               (verificationUrl env (randomHex env))]),
             Sent (if sendMailOk env
                   then mkResponse 200 (Message "Verification email sent successfully")
                   else mkResponse 500
                          (MessageError "Failed to send verification email"
                             TransportError)))
          /\ verificationTokenExpiry u' = verificationTokenExpiry u).
Proof.
  intros env w. split; [|split; [|split]].
  - intros [e|] He; unfold resendVerificationEmail; run_handler;
      [|destruct w; reflexivity].
    cbn in He. apply negb_false_iff in He. rewrite He. destruct w; reflexivity.
  - intros e He Hnone. apply String.eqb_neq in He.
    unfold resendVerificationEmail. run_handler. rewrite He, Hnone.
    destruct w; reflexivity.
  - intros e u He Hfind Hver. apply String.eqb_neq in He.
    unfold resendVerificationEmail. run_handler. rewrite He, Hfind, Hver.
    destruct w; reflexivity.
  - intros e u He Hfind Hver u'. split; [|reflexivity].
    apply String.eqb_neq in He.
    unfold resendVerificationEmail, sendMail. run_handler.
    rewrite He, Hfind, Hver. cbn. destruct (sendMailOk env); reflexivity.
Qed.

End Forgot.

(** ** More on the Google sign-in *)

Section OAuthMore.

Context {platform : Platform}.

(** X13.  A Google sign-in without ID token, or with an empty one, is
    answered 400; one whose token the verifier rejects is answered 401
    'Failed to verify Google token'; one whose ticket carries no payload
    is answered 400.  None of them writes anything. *)
Theorem googleLogin_rejects_bad_tokens :
  forall env w,
    (forall idToken,
        truthy idToken = false ->
        googleLogin env idToken w
        = (w, Sent (mkResponse 400 (Message "ID Token is required"))))
    /\ (forall t,
          t <> "" -> verifyIdToken env t = None ->
          googleLogin env (Some t) w
          = (w, Sent (mkResponse 401
                        (MessageError "Failed to verify Google token" TokenError))))
    /\ (forall t,
          t <> "" -> verifyIdToken env t = Some None ->
          googleLogin env (Some t) w
          = (w, Sent (mkResponse 400 (Message "Invalid Google token")))).
Proof.
  intros env w. split; [|split].
  - intros [t|] Ht; unfold googleLogin; run_handler; [|destruct w; reflexivity].
    cbn in Ht. apply negb_false_iff in Ht. rewrite Ht. destruct w; reflexivity.
  - intros t Ht Hv. apply String.eqb_neq in Ht.
    unfold googleLogin. run_handler. rewrite Ht, Hv. destruct w; reflexivity.
  - intros t Ht Hv. apply String.eqb_neq in Ht.
    unfold googleLogin. run_handler. rewrite Ht, Hv. destruct w; reflexivity.
Qed.

(** X14.  A Google sign-in for an email without account, with a
    non-empty subject, appends exactly one account: linked to the
    subject, with [isVerified] equal to the upstream flag, the hash of a
    random password, no verification token, and the schema's defaults
    elsewhere.  No mail is sent and the answer is 200 with a token for
    the new id. *)
Theorem googleLogin_creates_account :
  forall env t payload w,
    t <> "" ->
    verifyIdToken env t = Some (Some payload) ->
    find (by_email (g_email payload)) (users w) = None ->
    castEmail (g_email payload) <> "" ->
    g_sub payload <> "" ->
    existsb (by_id (newObjectId env)) (users w) = false ->
    let doc :=
      mkUser (newObjectId env) (Some (js_trim (or_default (g_name payload) "")))
        (castEmail (g_email payload))
        (Some (bcrypt_hash (randomHex env) (genSalt env)))
        (or_default (g_picture payload) "") (g_email_verified payload)
        (Some (g_sub payload)) 0 None None 0 None None None None 0 false None in
    googleLogin env (Some t) w
    = (mkWorld (users w ++ [doc]) (outbox w),
       Sent (mkResponse 200
               (SessionBody (generateToken env (newObjectId env))
                  (mkProfile (newObjectId env) (castEmail (g_email payload))
                     (Some (or_default (Some (js_trim (or_default (g_name payload) ""))) ""))
                     (or_default (Some (or_default (g_picture payload) "")) "")
                     (g_email_verified payload))))).
Proof.
  intros env t payload w Ht Hverify Hfind Hcast Hsub Hid doc.
  apply String.eqb_neq in Ht, Hcast, Hsub.
  pose proof (find_none_existsb _ _ Hfind) as Hmail. unfold by_email in Hmail.
  unfold googleLogin, create. run_handler.
  rewrite Ht, Hverify. cbn. rewrite Hfind. cbn.
  rewrite Hcast, Hsub. cbn. rewrite andb_false_r, Hid, Hmail. reflexivity.
Qed.

(** X15.  The Google sign-in does not look at the lock: for a locked
    account it answers 200 with a token for the account's id, while the
    account stays locked and every password login for it is still
    answered 401. *)
Theorem googleLogin_ignores_lock :
  forall env env' t payload req_password w u,
    NoDup (ids (users w)) ->
    t <> "" ->
    verifyIdToken env t = Some (Some payload) ->
    find (by_email (g_email payload)) (users w) = Some u ->
    accountLocked u = true ->
    exists w' profile,
      googleLogin env (Some t) w
      = (w', Sent (mkResponse 200
                     (SessionBody (generateToken env (_id u)) profile)))
      /\ loginUser env' (g_email payload) req_password w'
         = (w', Sent (mkResponse 401 (Message locked_message))).
Proof.
  intros env env' t payload req_password w u Hnd Ht Hverify Hfind Hlock.
  pose proof (keeps_lockout_evolves _ _ (googleLogin_keeps env (Some t) w Hnd))
    as Hev.
  assert (forall a b, account_step a b ->
                      by_email (g_email payload) b = by_email (g_email payload) a)
    as Hf.
  { intros a b (_ & He & _). unfold by_email. now rewrite He. }
  destruct (evolves_by_find _ _ _ _ _ u Hf Hev Hfind) as (u' & Hfind' & Hstep).
  pose proof (account_step_locked _ _ Hstep Hlock) as Hlock'.
  pose proof (login_locked_step env' (g_email payload) req_password _ u'
                Hfind' Hlock') as Hlogin.
  revert Hlogin. clear Hev Hfind' Hstep.
  apply String.eqb_neq in Ht.
  unfold googleLogin. run_handler. rewrite Ht, Hverify. cbn. rewrite Hfind. cbn.
  destruct (truthy (googleId u)); cbn;
    destruct (negb (isVerified u) && g_email_verified payload); cbn;
    intros Hlogin; do 2 eexists; (split; [reflexivity|exact Hlogin]).
Qed.

(** X16.  The Google sign-in finds the account by email and links it
    once: an account that already carries a [googleId] keeps it, also
    when the subject of the token is another one, and the sign-in is
    still answered 200 for that account. *)
Theorem googleLogin_links_once :
  forall env t payload w u g,
    NoDup (ids (users w)) ->
    t <> "" ->
    verifyIdToken env t = Some (Some payload) ->
    find (by_email (g_email payload)) (users w) = Some u ->
    googleId u = Some g -> g <> "" ->
    exists w' profile u',
      googleLogin env (Some t) w
      = (w', Sent (mkResponse 200
                     (SessionBody (generateToken env (_id u)) profile)))
      /\ find (by_id (_id u)) (users w') = Some u'
      /\ googleId u' = Some g.
Proof.
  intros env t payload w u g Hnd Ht Hverify Hfind Hg Hne.
  pose proof (find_by_id_found _ _ _ Hnd Hfind) as Hid.
  apply String.eqb_neq in Ht, Hne.
  unfold googleLogin. run_handler. rewrite Ht, Hverify. cbn. rewrite Hfind. cbn.
  rewrite Hg. cbn. rewrite Hne. cbn.
  destruct (negb (isVerified u) && g_email_verified payload); cbn;
    do 3 eexists; (split; [reflexivity|]); cbn.
  - split; [apply (find_saved u); [exact Hid|reflexivity]|exact Hg].
  - split; [exact Hid|exact Hg].
Qed.

End OAuthMore.

(** ** More on the referral engine *)

Lemma is_alnum_upper (c : ascii) :
  is_alnum c = true -> is_upper_alnum (upper c) = true.
Proof.
  destruct c as [[] [] [] [] [] [] [] []]; intros H;
    solve [reflexivity | discriminate H].
Qed.

Lemma keep_alnum_forall (s : string) :
  string_forallb is_alnum (keep_alnum s) = true.
Proof.
  induction s as [|c rest IH]; simpl; [reflexivity|].
  destruct (is_alnum c) eqn:E; simpl; [now rewrite E|exact IH].
Qed.

Lemma toUpperCase_forall (s : string) :
  string_forallb is_alnum s = true ->
  string_forallb is_upper_alnum (toUpperCase s) = true.
Proof.
  induction s as [|c rest IH]; simpl; [reflexivity|].
  intros H. apply andb_true_iff in H. destruct H as [Hc Hrest].
  now rewrite (is_alnum_upper c Hc), IH.
Qed.

Lemma substring_prefix_forall (p : ascii -> bool) (n : nat) (s : string) :
  string_forallb p s = true -> string_forallb p (substring 0 n s) = true.
Proof.
  revert s. induction n as [|n IH]; intros [|c rest]; simpl; auto.
  intros H. apply andb_true_iff in H. destruct H as [Hc Hrest].
  now rewrite Hc, IH.
Qed.

Lemma substring_prefix_length (n : nat) (s : string) :
  (String.length (substring 0 n s) <= n)%nat.
Proof.
  revert s. induction n as [|n IH]; intros [|c rest]; simpl; try lia.
  specialize (IH rest). lia.
Qed.

Section ReferralMore.

Context {platform : Platform}.

Lemma generateReferralCode_unfold hex draws userId w :
  generateReferralCode (hex :: draws) userId w
  = match find (fun u => field_is (referralCode u)
                           (referral_candidate userId hex)) (users w) with
    | Some _ => generateReferralCode draws userId w
    | None => (w, Next (referral_candidate userId hex))
    end.
Proof.
  cbn [generateReferralCode]. unfold referral_candidate. run_handler.
  destruct (find _ (users w)); reflexivity.
Qed.

(** What [generateReferralCode] returns, and when. *)
Lemma generateReferralCode_result :
  forall draws userId w,
    (forall w' code,
        generateReferralCode draws userId w = (w', Next code) ->
        w' = w
        /\ (exists hex, In hex draws /\ code = referral_candidate userId hex)
        /\ find (fun u => field_is (referralCode u) code) (users w) = None
        /\ (String.length code <= 8)%nat
        /\ string_forallb is_upper_alnum code = true)
    /\ (forall taken hex rest,
          draws = taken ++ hex :: rest ->
          (forall h, In h taken ->
             find (fun u => field_is (referralCode u)
                              (referral_candidate userId h)) (users w) <> None) ->
          find (fun u => field_is (referralCode u)
                           (referral_candidate userId hex)) (users w) = None ->
          generateReferralCode draws userId w
          = (w, Next (referral_candidate userId hex))).
Proof.
  intros draws userId w. split.
  - induction draws as [|hex draws IH]; intros w' code.
    + cbn. discriminate.
    + rewrite generateReferralCode_unfold.
      destruct (find _ (users w)) eqn:E.
      * intros H. destruct (IH w' code H) as (Hw & (h & Hin & Hc) & Hrest).
        split; [exact Hw|]. split; [|exact Hrest].
        exists h. split; [now right|exact Hc].
      * intros [= <- <-]. split; [reflexivity|].
        split; [exists hex; split; [now left|reflexivity]|].
        split; [exact E|]. unfold referral_candidate. split.
        -- apply substring_prefix_length.
        -- apply substring_prefix_forall, toUpperCase_forall, keep_alnum_forall.
  - intros taken. revert draws.
    induction taken as [|h taken IH]; intros draws hex rest -> Htaken Hfree.
    + cbn [app]. rewrite generateReferralCode_unfold. now rewrite Hfree.
    + cbn [app]. rewrite generateReferralCode_unfold.
      destruct (find (fun u => field_is (referralCode u)
                                 (referral_candidate userId h)) (users w)) eqn:E.
      * apply (IH _ hex rest eq_refl); [|exact Hfree].
        intros h' Hh'. apply Htaken. now right.
      * exfalso. apply (Htaken h); [now left|exact E].
Qed.

(** X17.  [generateReferralCode] only reads the collection.  A code it
    returns is built from one of the draws, is held by no account, has
    at most 8 characters and consists of digits and upper-case letters.
    It returns at the first draw whose candidate is free; while every
    candidate drawn so far is taken, the call has not returned. *)
Theorem generateReferralCode_returns_free_code :
  forall draws userId w,
    (forall w' code,
        generateReferralCode draws userId w = (w', Next code) ->
        w' = w
        /\ (exists hex, In hex draws /\ code = referral_candidate userId hex)
        /\ find (fun u => field_is (referralCode u) code) (users w) = None
        /\ (String.length code <= 8)%nat
        /\ string_forallb is_upper_alnum code = true)
    /\ (forall taken hex rest,
          draws = taken ++ hex :: rest ->
          (forall h, In h taken ->
             find (fun u => field_is (referralCode u)
                              (referral_candidate userId h)) (users w) <> None) ->
          find (fun u => field_is (referralCode u)
                           (referral_candidate userId hex)) (users w) = None ->
          generateReferralCode draws userId w
          = (w, Next (referral_candidate userId hex)))
    /\ ((forall h, In h draws ->
            find (fun u => field_is (referralCode u)
                             (referral_candidate userId h)) (users w) <> None) ->
        generateReferralCode draws userId w = (w, Pending)).
Proof.
  intros draws userId w.
  destruct (generateReferralCode_result draws userId w) as [Hfree Hfirst].
  split; [exact Hfree|]. split; [exact Hfirst|].
  induction draws as [|hex draws IH]; intros Htaken; [reflexivity|].
  rewrite generateReferralCode_unfold.
  destruct (find (fun u => field_is (referralCode u)
                             (referral_candidate userId hex)) (users w)) eqn:E.
  - destruct (generateReferralCode_result draws userId w) as [Hfree' Hfirst'].
    apply (IH Hfree' Hfirst'). intros h Hh. apply Htaken. now right.
  - exfalso. apply (Htaken hex); [now left|exact E].
Qed.

Lemma getReferralInfo_with_code env req_user_id w u :
  find (by_id req_user_id) (users w) = Some u ->
  truthy (referralCode u) = true ->
  getReferralInfo env req_user_id w
  = (w, Sent (mkResponse 200
                (ReferralBody (referralCode u) (referralCount u)
                   (sawabPoints u)))).
Proof.
  intros Hfind Hcode. unfold getReferralInfo. run_handler.
  rewrite Hfind. cbn. rewrite Hcode. cbn. destruct w; reflexivity.
Qed.

(** X18.  The referral code of an account is assigned once.  For an
    account that has a code, GET /referral returns it with the two
    counters and writes nothing.  For an account without code, when the
    generation returns a non-empty code, the code is stored on that
    account only, no other account holds it, and a second request
    returns the same code and writes nothing. *)
Theorem getReferralInfo_assigns_once :
  forall env env' req_user_id w u,
    NoDup (ids (users w)) ->
    find (by_id req_user_id) (users w) = Some u ->
    (truthy (referralCode u) = true ->
     getReferralInfo env req_user_id w
     = (w, Sent (mkResponse 200
                   (ReferralBody (referralCode u) (referralCount u)
                      (sawabPoints u)))))
    /\ (forall code,
          truthy (referralCode u) = false ->
          generateReferralCode (referralHex env) (_id u) w = (w, Next code) ->
          code <> "" ->
          let w' := mkWorld (updateOne (set_referralCode (Some code) u) (users w))
                      (outbox w) in
          let answer := Sent (mkResponse 200
                                (ReferralBody (Some code) (referralCount u)
                                   (sawabPoints u))) in
          getReferralInfo env req_user_id w = (w', answer)
          /\ getReferralInfo env' req_user_id w' = (w', answer)
          /\ (forall v, In v (users w') ->
                referralCode v = Some code ->
                v = set_referralCode (Some code) u)).
Proof.
  intros env env' req_user_id w u Hnd Hfind.
  pose proof (find_some _ _ Hfind) as [Hin Hid]. apply by_id_true in Hid.
  split.
  - intros Hcode. now apply getReferralInfo_with_code.
  - intros code Hnone Hgen Hne w' answer.
    destruct (generateReferralCode_result (referralHex env) (_id u) w)
      as [Hfree _].
    destruct (Hfree w code Hgen) as (_ & _ & Hunused & _).
    split; [|split].
    + unfold getReferralInfo. run_handler. rewrite Hfind. cbn.
      rewrite Hnone. cbn. rewrite Hgen. reflexivity.
    + assert (find (by_id req_user_id) (users w')
              = Some (set_referralCode (Some code) u)) as Hfind'.
      { unfold w'. cbn [users]. rewrite <- Hid.
        apply (find_saved u); [now rewrite Hid|reflexivity]. }
      apply (getReferralInfo_with_code env' req_user_id w' _ Hfind').
      cbn. apply String.eqb_neq in Hne. now rewrite Hne.
    + intros v Hv Hcode. unfold w' in Hv. cbn [users] in Hv.
      destruct (In_updateOne_nodup _ _ _ Hnd Hv) as [->|[Hvin _]];
        [reflexivity|].
      pose proof (proj1 (find_none_iff _ _) Hunused v Hvin) as Hv'.
      cbn in Hv'. rewrite Hcode in Hv'. cbn in Hv'.
      rewrite String.eqb_refl in Hv'. discriminate.
Qed.

(** X19.  Applying a code that no account holds is answered 404, and
    applying one's own code is answered 400 'You cannot refer yourself',
    whether or not the caller has been referred before; in both cases
    nothing is written. *)
Theorem applyReferralCode_rejects_unknown_and_own :
  forall env req_user_id code w,
    (find (fun v => field_is (referralCode v) code) (users w) = None ->
     applyReferralCode env req_user_id code w
     = (w, Sent (mkResponse 404 (Message "Invalid referral code"))))
    /\ (forall referrer,
          find (fun v => field_is (referralCode v) code) (users w) = Some referrer ->
          _id referrer = req_user_id ->
          applyReferralCode env req_user_id code w
          = (w, Sent (mkResponse 400 (Message "You cannot refer yourself")))).
Proof.
  intros env req_user_id code w. split.
  - intros Hnone. unfold applyReferralCode. run_handler. rewrite Hnone.
    destruct w; reflexivity.
  - intros referrer Hfind Hid. unfold applyReferralCode. run_handler.
    rewrite Hfind, Hid, String.eqb_refl. destruct w; reflexivity.
Qed.

Lemma shareReferralLink_step env req_user_id w u :
  find (by_id req_user_id) (users w) = Some u ->
  shareReferralLink env req_user_id w
  = (mkWorld (updateOne (set_sawabPoints (sawabPoints u + 2) u) (users w))
       (outbox w),
     Sent (mkResponse 200
             (PointsMessageBody "Points awarded for sharing" (sawabPoints u + 2)))).
Proof.
  intros Hfind. unfold shareReferralLink. run_handler. now rewrite Hfind.
Qed.

(** X20.  Sharing has no cap of its own.  While the total stays within
    the safe-integer range, where the sum of the source's numbers is the
    integer sum, each POST /referral/share by a stored account adds 2
    points: after [n] of them the account has [2 n] points more, every
    other path and every other account as before, no mail is sent, and
    one more share is answered with that total plus 2. *)
Theorem shareReferralLink_accumulates :
  forall n env req_user_id w u,
    find (by_id req_user_id) (users w) = Some u ->
    - MAX_SAFE_INTEGER <= sawabPoints u ->
    sawabPoints u + 2 * Z.of_nat n + 2 <= MAX_SAFE_INTEGER ->
    let w' := share_times n env req_user_id w in
    find (by_id req_user_id) (users w')
    = Some (mkUser (_id u) (name u) (email u) (password u) (profilePicture u)
              (isVerified u) (googleId u) (sawabPoints u + 2 * Z.of_nat n)
              (referralCode u) (referredBy u) (referralCount u)
              (verificationToken u) (verificationTokenExpiry u)
              (resetPasswordToken u) (resetPasswordExpiry u)
              (loginAttempts u) (accountLocked u) (lastLogin u))
    /\ (forall i, i <> req_user_id ->
          find (by_id i) (users w') = find (by_id i) (users w))
    /\ outbox w' = outbox w
    /\ snd (shareReferralLink env req_user_id w')
       = Sent (mkResponse 200
                 (PointsMessageBody "Points awarded for sharing"
                    (sawabPoints u + 2 * Z.of_nat n + 2))).
Proof.
  induction n as [|n IH]; intros env req_user_id w u Hfind Hlow Hhigh w'.
  - unfold w'. cbn [share_times].
    replace (sawabPoints u + 2 * Z.of_nat 0) with (sawabPoints u) by lia.
    split; [|split; [|split]]; auto.
    + rewrite Hfind. now destruct u.
    + now rewrite (shareReferralLink_step env req_user_id w u Hfind).
  - pose proof (find_some _ _ Hfind) as [_ Hid]. apply by_id_true in Hid.
    unfold w'. cbn [share_times].
    rewrite (shareReferralLink_step env req_user_id w u Hfind). cbn [fst].
    set (u1 := set_sawabPoints (sawabPoints u + 2) u).
    set (w1 := mkWorld (updateOne u1 (users w)) (outbox w)).
    assert (find (by_id req_user_id) (users w1) = Some u1) as Hfind1.
    { unfold w1. cbn [users]. rewrite <- Hid.
      apply (find_saved u); [now rewrite Hid|reflexivity]. }
    assert (sawabPoints u1 = sawabPoints u + 2) as Hpts by reflexivity.
    assert (sawabPoints u1 + 2 * Z.of_nat n
            = sawabPoints u + 2 * Z.of_nat (S n)) as Hsum by lia.
    destruct (IH env req_user_id w1 u1 Hfind1) as (Hu & Hothers & Hout & Hnext);
      [lia|lia|].
    rewrite Hsum in Hu, Hnext.
    split; [|split; [|split]].
    + rewrite Hu. reflexivity.
    + intros i Hi. rewrite (Hothers i Hi). unfold w1. cbn [users].
      apply find_by_id_updateOne_other. unfold u1. cbn. congruence.
    + exact Hout.
    + exact Hnext.
Qed.

End ReferralMore.

(** ** More on [protect] *)

Lemma split_space_single (t : string) :
  string_forallb not_space t = true -> split_space t = [t].
Proof.
  induction t as [|c rest IH]; simpl; [reflexivity|].
  intros H. apply andb_true_iff in H. destruct H as [Hc Hrest].
  unfold not_space in Hc. apply negb_true_iff in Hc. rewrite Hc.
  now rewrite (IH Hrest).
Qed.

Section ProtectMore.

Context {platform : Platform}.

(** X21.  [protect] writes nothing and lets a request through only
    with the id of a stored, verified account that the presented token
    verifies to; every answer it gives itself has status 401. *)
Theorem protect_passes_only_verified :
  forall env req w,
    fst (protect env req w) = w
    /\ match snd (protect env req w) with
       | Next id =>
         exists token u,
           bearer_token req = Some token /\ token <> ""
           /\ jwtVerify env token = Some id
           /\ find (by_id id) (users w) = Some u
           /\ isVerified u = true
       | Sent r => status r = 401
       | Thrown _ => False
       | Pending => False
       end.
Proof.
  intros env req w. split; [apply protect_world|].
  unfold protect. run_handler.
  destruct (bearer_token req) as [token|] eqn:Htoken; cbn; [|reflexivity].
  destruct (token =? "")%string eqn:Hne; cbn; [reflexivity|].
  destruct (jwtVerify env token) as [id|] eqn:Hjwt; cbn; [|reflexivity].
  destruct (find (by_id id) (users w)) as [u|] eqn:Hfind; cbn; [|reflexivity].
  destruct (isVerified u) eqn:Hver; cbn; [|reflexivity].
  pose proof (find_some _ _ Hfind) as [_ Hid]. apply by_id_true in Hid.
  exists token, u. rewrite Hid. apply String.eqb_neq in Hne. auto.
Qed.

(** X22.  Where the token is read from.  A header 'Bearer ' followed by
    a token without space yields that token, whatever the cookie.  A
    header that starts with 'Bearer' and has no space yields no token and
    the request is answered 401, even when the cookie carries one.  A
    header that does not start with 'Bearer' leaves the cookie's token,
    when that is not empty. *)
Theorem bearer_token_sources :
  forall env cookie w,
    (forall t,
        string_forallb not_space t = true ->
        bearer_token (mkHeaders (Some ("Bearer " ++ t)%string) cookie) = Some t)
    /\ (forall header,
          prefix "Bearer" header = true ->
          string_forallb not_space header = true ->
          bearer_token (mkHeaders (Some header) cookie) = None
          /\ protect env (mkHeaders (Some header) cookie) w
             = (w, Sent (mkResponse 401
                           (Message "Not authorized to access this route"))))
    /\ (forall header,
          prefix "Bearer" header = false ->
          bearer_token (mkHeaders (Some header) cookie)
          = if truthy cookie then cookie else None).
Proof.
  intros env cookie w. split; [|split].
  - intros t Ht. unfold bearer_token. cbn.
    now rewrite (split_space_single t Ht).
  - intros header Hp Hs.
    assert (bearer_token (mkHeaders (Some header) cookie) = None) as Hnone.
    { unfold bearer_token. cbn [authorization]. rewrite Hp.
      destruct header as [|c rest]; [discriminate Hp|]. cbn [negb String.eqb andb].
      now rewrite (split_space_single _ Hs). }
    split; [exact Hnone|].
    unfold protect. rewrite Hnone. run_handler. destruct w; reflexivity.
  - intros header Hp. unfold bearer_token. cbn [authorization cookie_token].
    rewrite Hp. now rewrite andb_false_r.
Qed.

End ProtectMore.

(** ** What no request takes back *)

Lemma ledger_step_refl (u : User) : ledger_step u u.
Proof. unfold ledger_step. repeat split; auto; lia. Qed.

Lemma ledger_step_id (u v : User) : ledger_step u v -> _id v = _id u.
Proof. now intros [H _]. Qed.

Lemma ledger_step_trans (a b c : User) :
  ledger_step a b -> ledger_step b c -> ledger_step a c.
Proof.
  intros (I1 & P1 & C1 & V1 & R1 & K1 & W1) (I2 & P2 & C2 & V2 & R2 & K2 & W2).
  unfold ledger_step. repeat split; auto; try lia; try congruence.
  intros Hk. rewrite <- (K1 Hk). apply K2. now rewrite (K1 Hk).
Qed.

#[local] Hint Resolve ledger_step_refl ledger_step_id : steps.

Ltac ledger_solver :=
  unfold ledger_step; cbn; repeat split;
  solve [ reflexivity | lia | auto | intros; congruence | intros; discriminate ].

Ltac password_solver := unfold has_password; cbn; discriminate.

Section Ledger.

Context {platform : Platform}.

Lemma register_ledger env n e p w :
  NoDup (ids (users w)) ->
  ledger_evolves (users w) (users (fst (register env n e p w))).
Proof.
  intros Hnd. unfold register, create. run_handler.
  crunch; unfold ledger_evolves; evolve_leaf ledger_solver password_solver.
Qed.

Lemma verifyEmail_ledger env t w :
  NoDup (ids (users w)) ->
  ledger_evolves (users w) (users (fst (verifyEmail env t w))).
Proof.
  intros Hnd. unfold verifyEmail. run_handler.
  crunch; unfold ledger_evolves; evolve_leaf ledger_solver password_solver.
Qed.

Lemma loginUser_ledger env e p w :
  NoDup (ids (users w)) ->
  ledger_evolves (users w) (users (fst (loginUser env e p w))).
Proof.
  intros Hnd. unfold loginUser. run_handler.
  crunch; unfold ledger_evolves; evolve_leaf ledger_solver password_solver.
Qed.

Lemma googleLogin_ledger env t w :
  NoDup (ids (users w)) ->
  ledger_evolves (users w) (users (fst (googleLogin env t w))).
Proof.
  intros Hnd. unfold googleLogin, create. run_handler.
  crunch; unfold ledger_evolves; evolve_leaf ledger_solver password_solver.
Qed.

Lemma getCurrentUser_ledger env i w :
  NoDup (ids (users w)) ->
  ledger_evolves (users w) (users (fst (getCurrentUser env i w))).
Proof.
  intros Hnd. unfold getCurrentUser. run_handler.
  crunch; unfold ledger_evolves; evolve_leaf ledger_solver password_solver.
Qed.

Lemma forgotPassword_ledger env e w :
  NoDup (ids (users w)) ->
  ledger_evolves (users w) (users (fst (forgotPassword env e w))).
Proof.
  intros Hnd. unfold forgotPassword, sendMail. run_handler.
  crunch; unfold ledger_evolves; evolve_leaf ledger_solver password_solver.
Qed.

Lemma resetPassword_ledger env t p w :
  NoDup (ids (users w)) ->
  ledger_evolves (users w) (users (fst (resetPassword env t p w))).
Proof.
  intros Hnd. unfold resetPassword. run_handler.
  crunch; unfold ledger_evolves; evolve_leaf ledger_solver password_solver.
Qed.

Lemma resendVerificationEmail_ledger env e w :
  NoDup (ids (users w)) ->
  ledger_evolves (users w) (users (fst (resendVerificationEmail env e w))).
Proof.
  intros Hnd. unfold resendVerificationEmail, sendMail. run_handler.
  crunch; unfold ledger_evolves; evolve_leaf ledger_solver password_solver.
Qed.

Lemma getReferralInfo_ledger env i w :
  NoDup (ids (users w)) ->
  ledger_evolves (users w) (users (fst (getReferralInfo env i w))).
Proof.
  intros Hnd. unfold getReferralInfo, ledger_evolves. run_handler.
  destruct (find (by_id i) (users w)) as [u|] eqn:Hu; cbn;
    [|apply evolves_by_refl; auto with steps].
  destruct (truthy (referralCode u)) eqn:Hcode; cbn;
    [apply evolves_by_refl; auto with steps|].
  pose proof (generateReferralCode_world (referralHex env) (_id u) w) as Hw.
  destruct (generateReferralCode (referralHex env) (_id u) w) as [w0 f].
  simpl in Hw. subst w0.
  destruct f; evolve_leaf ledger_solver password_solver.
Qed.

Lemma applyReferralCode_ledger env i c w :
  NoDup (ids (users w)) ->
  ledger_evolves (users w) (users (fst (applyReferralCode env i c w))).
Proof.
  intros Hnd. unfold applyReferralCode. run_handler. crunch;
    unfold ledger_evolves; try solve [evolve_leaf ledger_solver password_solver].
  match goal with
  | Hr : find _ _ = Some ?r, Hc : find (by_id _) _ = Some ?c |- _ =>
    apply (evolves_by_updateOne2 _ _) with (u1 := r) (u2 := c);
      [ solve [auto with steps] | solve [auto with steps]
      | assumption | apply (find_some _ _ Hr) | apply (find_some _ _ Hc)
      | ledger_solver | ledger_solver | ];
    intros Hid; apply find_some in Hc; destruct Hc as [_ Hc];
    apply by_id_true in Hc
  end.
  match goal with
  | H : (_ =? _)%string = false |- _ => apply String.eqb_neq in H
  end.
  congruence.
Qed.

Lemma shareReferralLink_ledger env i w :
  NoDup (ids (users w)) ->
  ledger_evolves (users w) (users (fst (shareReferralLink env i w))).
Proof.
  intros Hnd. unfold shareReferralLink. run_handler.
  crunch; unfold ledger_evolves; evolve_leaf ledger_solver password_solver.
Qed.

Lemma getSawabPoints_ledger env i w :
  NoDup (ids (users w)) ->
  ledger_evolves (users w) (users (fst (getSawabPoints env i w))).
Proof.
  intros Hnd. unfold getSawabPoints. run_handler.
  crunch; unfold ledger_evolves; evolve_leaf ledger_solver password_solver.
Qed.

End Ledger.

Section LedgerTraces.

Context {platform : Platform}.

Variable updateProfile : Env -> ObjectId -> Controller.

Hypothesis updateProfile_ledger :
  forall env id, keeps_ledger (updateProfile env id).

Lemma dispatch_ledger env request w :
  NoDup (ids (users w)) ->
  ledger_evolves (users w) (users (fst (dispatch updateProfile env request w))).
Proof.
  intros Hnd.
  destruct request as [n e p|t|e p|t|e|t p|e|req route]; cbn [dispatch].
  - now apply register_ledger.
  - now apply verifyEmail_ledger.
  - now apply loginUser_ledger.
  - now apply googleLogin_ledger.
  - now apply forgotPassword_ledger.
  - now apply resetPassword_ledger.
  - now apply resendVerificationEmail_ledger.
  - unfold guarded, bind.
    pose proof (protect_world env req w) as Hw.
    destruct (protect env req w) as [w0 f]. simpl in Hw. subst w0.
    destruct f as [id| | |]; try (apply evolves_by_refl; auto with steps).
    destruct route; cbn [protected_controller].
    + now apply getCurrentUser_ledger.
    + exists (users (fst (updateProfile env id w))), []. rewrite app_nil_r.
      split; [reflexivity|]. split; [|split; constructor].
      exact (updateProfile_ledger env id w).
    + now apply getReferralInfo_ledger.
    + now apply applyReferralCode_ledger.
    + now apply shareReferralLink_ledger.
    + now apply getSawabPoints_ledger.
Qed.

(** No trace removes an account, and what a trace does to an account
    is a [ledger_step]. *)
Lemma serve_ledger trace :
  forall w i u,
    NoDup (ids (users w)) ->
    find (by_id i) (users w) = Some u ->
    exists u',
      find (by_id i) (users (serve updateProfile trace w)) = Some u'
      /\ ledger_step u u'.
Proof.
  induction trace as [|[env request] trace IH]; simpl; intros w i u Hnd Hfind.
  - exists u. split; [assumption|apply ledger_step_refl].
  - pose proof (dispatch_ledger env request w Hnd) as Hev.
    assert (forall a b, ledger_step a b -> by_id i b = by_id i a) as Hf.
    { intros a b [Hab _]. unfold by_id. now rewrite Hab. }
    destruct (evolves_by_find _ _ _ _ _ u Hf Hev Hfind) as (u1 & Hfind1 & Hstep1).
    pose proof (evolves_by_NoDup _ _ ledger_step_id _ _ Hnd Hev) as Hnd1.
    destruct (IH _ i u1 Hnd1 Hfind1) as (u' & Hfind' & Hstep').
    exists u'. split; [assumption|].
    exact (ledger_step_trans _ _ _ Hstep1 Hstep').
Qed.

Lemma ledger_evolves_passwords (db db' : Store) :
  Forall has_password db -> ledger_evolves db db' -> Forall has_password db'.
Proof.
  intros Hok (old & new & -> & Hold & Hnew & _).
  apply Forall_app. split.
  - clear Hnew. induction Hold as [|u v db old Hstep _ IH]; constructor.
    + destruct Hstep as (_ & _ & _ & _ & _ & _ & Hp). apply Hp.
      now inversion Hok.
    + apply IH. now inversion Hok.
  - apply (Forall_impl _ (P := fun v => has_password v /\ ~ In (_id v) (ids db)));
      [|assumption].
    now intros v [H _].
Qed.

Lemma serve_passwords trace :
  forall w,
    NoDup (ids (users w)) -> Forall has_password (users w) ->
    Forall has_password (users (serve updateProfile trace w)).
Proof.
  induction trace as [|[env request] trace IH]; simpl; intros w Hnd Hok.
  - assumption.
  - pose proof (dispatch_ledger env request w Hnd) as Hev.
    apply IH.
    + exact (evolves_by_NoDup _ _ ledger_step_id _ _ Hnd Hev).
    + exact (ledger_evolves_passwords _ _ Hok Hev).
Qed.

End LedgerTraces.

(** X23.  Accounts are never deleted and the referral ledger only
    grows: after any trace of requests, every account that was stored is
    still stored under its id, with at least the points and the referral
    count it had.  The profile controller, whose source is not at hand,
    is any controller that changes accounts by [ledger_step]s. *)
Theorem points_never_decrease {platform : Platform} :
  forall updateProfile,
    (forall env id, keeps_ledger (updateProfile env id)) ->
    forall trace w u,
      NoDup (ids (users w)) ->
      In u (users w) ->
      exists u',
        find (by_id (_id u)) (users (serve updateProfile trace w)) = Some u'
        /\ sawabPoints u <= sawabPoints u'
        /\ referralCount u <= referralCount u'.
Proof.
  intros updateProfile Hledger trace w u Hnd Hin.
  destruct (serve_ledger updateProfile Hledger trace w (_id u) u Hnd
              (find_by_id_In u _ Hnd Hin))
    as (u' & Hfind & _ & Hp & Hc & _).
  now exists u'.
Qed.

(** X24.  What a request never takes back.  After any trace of
    requests, an account that was verified is verified, an account that
    had a referrer has the same referrer, and an account that had a
    non-empty referral code has the same code.  The profile controller
    is as in X23. *)
Theorem marks_are_permanent {platform : Platform} :
  forall updateProfile,
    (forall env id, keeps_ledger (updateProfile env id)) ->
    forall trace w u,
      NoDup (ids (users w)) ->
      In u (users w) ->
      exists u',
        find (by_id (_id u)) (users (serve updateProfile trace w)) = Some u'
        /\ (isVerified u = true -> isVerified u' = true)
        /\ (forall r, referredBy u = Some r -> referredBy u' = Some r)
        /\ (truthy (referralCode u) = true -> referralCode u' = referralCode u).
Proof.
  intros updateProfile Hledger trace w u Hnd Hin.
  destruct (serve_ledger updateProfile Hledger trace w (_id u) u Hnd
              (find_by_id_In u _ Hnd Hin))
    as (u' & Hfind & _ & _ & _ & Hv & Hr & Hk & _).
  now exists u'.
Qed.

(** X25.  From the empty collection, whatever requests are served,
    every stored account carries a password hash, the accounts created
    by a Google sign-in included: the schema's case of an account with a
    [googleId] and no password does not occur.  The profile controller
    is as in X23. *)
Theorem accounts_always_have_password {platform : Platform} :
  forall updateProfile,
    (forall env id, keeps_ledger (updateProfile env id)) ->
    forall trace,
      Forall (fun u => exists h, password u = Some h)
        (users (serve updateProfile trace (mkWorld [] []))).
Proof.
  intros updateProfile Hledger trace.
  apply (Forall_impl _ (P := has_password)).
  - intros u Hu. unfold has_password in Hu.
    destruct (password u) as [h|]; [now exists h|contradiction].
  - apply serve_passwords; simpl; auto; constructor.
Qed.

(** ** The plain text of a mail *)

Lemma append_assoc (a b c : string) : ((a ++ b) ++ c = a ++ (b ++ c))%string.
Proof. induction a as [|x a IH]; simpl; [reflexivity|now rewrite IH]. Qed.

Lemma append_nil_r (a : string) : (a ++ "" = a)%string.
Proof. induction a as [|x a IH]; simpl; [reflexivity|now rewrite IH]. Qed.

Lemma strip_scan_text (a b : string) :
  string_forallb not_lt a = true ->
  strip_scan None (a ++ b) = (a ++ strip_scan None b)%string.
Proof.
  induction a as [|c a IH]; simpl; [reflexivity|].
  intros H. apply andb_true_iff in H. destruct H as [Hc Ha].
  unfold not_lt in Hc. apply negb_true_iff in Hc. rewrite Hc.
  now rewrite (IH Ha).
Qed.

Lemma strip_scan_tag (held tag b : string) :
  string_forallb not_gt tag = true ->
  strip_scan (Some held) (tag ++ String ">" b) = strip_scan None b.
Proof.
  revert held. induction tag as [|c tag IH]; simpl; intros held H.
  - reflexivity.
  - apply andb_true_iff in H. destruct H as [Hc Ht].
    unfold not_gt in Hc. apply negb_true_iff in Hc. rewrite Hc.
    now apply IH.
Qed.

Lemma strip_scan_open (held t : string) :
  string_forallb not_gt t = true ->
  strip_scan (Some held) t = (held ++ t)%string.
Proof.
  revert held. induction t as [|c t IH]; simpl; intros held H.
  - now rewrite append_nil_r.
  - apply andb_true_iff in H. destruct H as [Hc Ht].
    unfold not_gt in Hc. apply negb_true_iff in Hc. rewrite Hc.
    rewrite (IH _ Ht). now rewrite append_assoc.
Qed.

Lemma string_forallb_app (p : ascii -> bool) (a b : string) :
  string_forallb p (a ++ b) = string_forallb p a && string_forallb p b.
Proof.
  induction a as [|c a IH]; simpl; [reflexivity|].
  now rewrite IH, andb_assoc.
Qed.

Lemma strip_scan_idempotent (s : string) :
  strip_tags (strip_scan None s) = strip_scan None s
  /\ forall held,
       string_forallb not_gt held = true ->
       strip_tags (strip_scan (Some (String "<" held)) s)
       = strip_scan (Some (String "<" held)) s.
Proof.
  induction s as [|c s [IHnone IHheld]]; simpl.
  - split; [reflexivity|]. intros held Hheld.
    unfold strip_tags. simpl. now apply strip_scan_open.
  - split.
    + destruct (Ascii.eqb c "<") eqn:E.
      * now apply (IHheld "").
      * unfold strip_tags in *. simpl. rewrite E. now rewrite IHnone.
    + intros held Hheld.
      destruct (Ascii.eqb c ">") eqn:E; [exact IHnone|].
      apply (IHheld (held ++ String c "")%string).
      rewrite string_forallb_app, Hheld. simpl. unfold not_gt.
      now rewrite E.
Qed.

(** X26.  The plain text that [sendEmail] derives from the HTML when no
    text is given.  Text without '<' is kept as it is; a tag, from a
    '<' to the next '>', is dropped; a '<' that no '>' follows is kept
    with all that comes after it; stripping a stripped text changes
    nothing; and a non-empty text given by the caller is used
    unchanged. *)
Theorem strip_tags_removes_complete_tags :
  forall a tag t b html text,
    string_forallb not_lt a = true ->
    string_forallb not_gt tag = true ->
    string_forallb not_gt t = true ->
    strip_tags a = a
    /\ strip_tags (a ++ String "<" (tag ++ String ">" b)) = (a ++ strip_tags b)%string
    /\ strip_tags (a ++ String "<" t) = (a ++ String "<" t)%string
    /\ strip_tags (strip_tags html) = strip_tags html
    /\ (text <> "" -> sendEmail_text (Some text) html = text)
    /\ sendEmail_text None html = strip_tags html
    /\ sendEmail_text (Some "") html = strip_tags html.
Proof.
  intros a tag t b html text Ha Htag Ht. unfold strip_tags.
  split; [|split; [|split; [|split; [|split; [|split]]]]].
  - rewrite <- (append_nil_r a) at 1. rewrite (strip_scan_text a "" Ha).
    simpl. apply append_nil_r.
  - rewrite (strip_scan_text _ _ Ha). simpl.
    now rewrite (strip_scan_tag "<" tag b Htag).
  - rewrite (strip_scan_text _ _ Ha). simpl.
    now rewrite (strip_scan_open "<" t Ht).
  - apply (proj1 (strip_scan_idempotent html)).
  - intros Hne. unfold sendEmail_text, or_default.
    apply String.eqb_neq in Hne. now rewrite Hne.
  - reflexivity.
  - reflexivity.
Qed.

(** ** Authenticated reads *)

Section Reads.

Context {platform : Platform}.

Variable updateProfile : Env -> ObjectId -> Controller.

(** X27.  A request that presents a token verifying to a stored,
    verified account reaches the controller with that account's id:
    GET /auth/me answers 200 with the account as [toJSON] leaves it,
    GET /referral/points answers 200 with its points, and neither
    writes. *)
Theorem authenticated_reads :
  forall env req w token id u,
    bearer_token req = Some token ->
    token <> "" ->
    jwtVerify env token = Some id ->
    find (by_id id) (users w) = Some u ->
    isVerified u = true ->
    protect env req w = (w, Next id)
    /\ dispatch updateProfile env (Authenticated req GetMe) w
       = (w, Sent (mkResponse 200 (UserBody (Some (toJSON u)))))
    /\ dispatch updateProfile env (Authenticated req GetReferralPoints) w
       = (w, Sent (mkResponse 200 (PointsBody (sawabPoints u)))).
Proof.
  intros env req w token id u Htoken Hne Hjwt Hfind Hver.
  pose proof (find_some _ _ Hfind) as [_ Hid]. apply by_id_true in Hid.
  apply String.eqb_neq in Hne.
  assert (protect env req w = (w, Next id)) as Hprotect.
  { unfold protect. rewrite Htoken. run_handler. rewrite Hne, Hjwt. cbn.
    rewrite Hfind, Hver. cbn. destruct w; now rewrite Hid. }
  split; [exact Hprotect|].
  split; cbn [dispatch protected_controller]; unfold guarded, bind;
    rewrite Hprotect.
  - unfold getCurrentUser. run_handler. rewrite Hfind. destruct w; reflexivity.
  - unfold getSawabPoints. run_handler. rewrite Hfind. destruct w; reflexivity.
Qed.

End Reads.

(** ** The further properties on the sample data *)

Lemma sample_world_NoDup : NoDup (ids (users sample_world)).
Proof. repeat constructor; simpl; intuition discriminate. Qed.

Lemma reset_world_NoDup : NoDup (ids (users reset_world)).
Proof. repeat constructor; simpl; intuition discriminate. Qed.

Lemma referral_world_NoDup : NoDup (ids (users referral_world)).
Proof. repeat constructor; simpl; intuition discriminate. Qed.

Lemma locked_world_NoDup : NoDup (ids (users locked_world)).
Proof. repeat constructor; simpl; intuition discriminate. Qed.

Lemma linked_world_NoDup : NoDup (ids (users linked_world)).
Proof. repeat constructor; simpl; intuition discriminate. Qed.

Lemma sample_updateProfile_ledger :
  forall env id, keeps_ledger (sample_updateProfile env id).
Proof.
  intros env id w. unfold sample_updateProfile, respond. simpl.
  induction (users w); constructor; auto using ledger_step_refl.
Qed.

(** X1, witness: gina registers. *)
Lemma register_creates_account_witness :
  let gina :=
    mkUser "id9" (Some "Gina") "gina@example.org" (Some "salt:pw") "" false
      None 0 None None 0 (Some "f00d") (Some 86401000) None None 0 false None in
  let w' :=
    mkWorld [alice; bob; gina]
      [mkMail "gina@example.org" "Verify your email address"
         "http://localhost:5173/verify-email?token=f00d"] in
  register sample_env (Some "Gina") (Some "gina@example.org") (Some "pw")
    sample_world
  = (w', Sent (mkResponse 201
                 (Message "User registered successfully. Please check your email to verify your account.")))
  /\ find (by_email "gina@example.org") (users w') = Some gina
  /\ (forall i v, find (by_id i) (users sample_world) = Some v ->
                  find (by_id i) (users w') = Some v).
Proof.
  assert ("gina@example.org" <> "") as He by discriminate.
  assert ("pw" <> "") as Hp by discriminate.
  assert (castEmail "gina@example.org" <> "") as Hc by discriminate.
  assert (bcrypt_hash "pw" (genSalt sample_env) <> "") as Hh by discriminate.
  exact (register_creates_account sample_env (Some "Gina") "gina@example.org"
           "pw" sample_world He Hp eq_refl Hc Hh eq_refl).
Defined.

(** X2, witness: a registration without password. *)
Lemma register_rejects_missing_input_witness :
  register sample_env None (Some "gina@example.org") None sample_world
  = (sample_world,
     Sent (mkResponse 400 (Message "Please provide email and password"))).
Proof.
  exact (register_rejects_missing_input sample_env None
           (Some "gina@example.org") None sample_world (or_intror eq_refl)).
Defined.

(** X3, witness: alice logs in. *)
Lemma login_success_resets_counter_witness :
  exists db' token,
    loginUser sample_env "alice@example.org" (Some "secret") sample_world
    = (mkWorld db' [],
       Sent (mkResponse 200
               (SessionBody token
                  (mkProfile "id1" "alice@example.org" (Some "Alice") "" true))))
    /\ token = "jwt-id1"
    /\ find (by_email "alice@example.org") db'
       = Some (mkUser "id1" (Some "Alice") "alice@example.org"
                 (Some "salt:secret") "" true None 0 (Some "ID1A1B2C") None 0
                 None None None None 0 false (Some 1000))
    /\ (forall i, i <> "id1" ->
          find (by_id i) db' = find (by_id i) (users sample_world)).
Proof.
  assert (find (by_email "alice@example.org") (users sample_world) = Some alice)
    as Hfind by reflexivity.
  exact (login_success_resets_counter sample_env "alice@example.org" "secret"
           sample_world alice "salt:secret" sample_world_NoDup Hfind eq_refl
           (or_introl eq_refl) eq_refl eq_refl).
Defined.

(** X4, witness: alice's address and an unknown one, both without
    password. *)
Lemma login_without_password_witness :
  loginUser sample_env "alice@example.org" None sample_world
  = (sample_world, Sent (mkResponse 500 (Message "Server error")))
  /\ loginUser sample_env "nobody@example.org" None sample_world
     = (sample_world, Sent (mkResponse 400 (Message "Invalid credentials"))).
Proof.
  assert (find (by_email "alice@example.org") (users sample_world) = Some alice)
    as Hfind by reflexivity.
  assert (find (by_email "nobody@example.org") (users sample_world) = None)
    as Hnone by reflexivity.
  split.
  - exact (proj1 (login_without_password sample_env "alice@example.org"
                    sample_world) alice Hfind eq_refl (or_introl eq_refl)).
  - exact (proj2 (login_without_password sample_env "nobody@example.org"
                    sample_world) Hnone).
Defined.


(** X6, witness: bob's token works once. *)
Lemma verifyEmail_token_single_use_witness :
  verifyEmail sample_env "n0ne" sample_world
  = (sample_world, Sent (mkResponse 400 (Message "Invalid verification token")))
  /\ (let w' := fst (verifyEmail sample_env "t0ken" sample_world) in
      verifyEmail later_env "t0ken" w'
      = (w', Sent (mkResponse 400 (Message "Invalid verification token")))).
Proof.
  assert (find (fun v => field_is (verificationToken v) "n0ne")
            (users sample_world) = None) as Hnone by reflexivity.
  assert (find (fun v => field_is (verificationToken v) "t0ken")
            (users sample_world) = Some bob) as Hfind by reflexivity.
  assert (forall v, In v (users sample_world) ->
                    verificationToken v = Some "t0ken" -> v = bob) as Huniq.
  { unfold sample_world. simpl.
    intros v [<-|[<-|[]]]; [discriminate|reflexivity]. }
  split.
  - exact (proj1 (verifyEmail_token_single_use sample_env later_env "n0ne"
                    sample_world) Hnone).
  - exact (proj2 (verifyEmail_token_single_use sample_env later_env "t0ken"
                    sample_world) bob sample_world_NoDup Hfind Huniq).
Defined.

(** X7, witness: erin's token expires at 2000; it is refused at 2000
    and accepted at 1000. *)
Lemma resetPassword_rejects_expired_witness :
  resetPassword later_env "r3set" (Some "new") reset_world
  = (reset_world, Sent (mkResponse 400 (Message "Invalid or expired reset token")))
  /\ snd (resetPassword sample_env "r3set" (Some "new") reset_world)
     = Sent (mkResponse 200 (Message "Password reset successful")).
Proof.
  assert (In erin (users reset_world)) as Hin by (simpl; auto).
  assert (now sample_env < 2000) as Hnow by reflexivity.
  split.
  - apply (proj1 (resetPassword_rejects_expired later_env "r3set" reset_world)
             (Some "new")).
    unfold reset_world. simpl.
    intros v [<-|[<-|[]]]; simpl; [discriminate|intros _; lia].
  - exact (proj2 (resetPassword_rejects_expired sample_env "r3set" reset_world)
             "new" erin 2000 Hin eq_refl eq_refl Hnow).
Defined.

Lemma erin_holds_token_alone :
  forall v, In v (users reset_world) -> resetPasswordToken v = Some "r3set" ->
            v = erin.
Proof.
  unfold reset_world. simpl.
  intros v [<-|[<-|[]]]; [discriminate|reflexivity].
Qed.

(** X8, witness: erin resets, then the token is dead. *)
Lemma resetPassword_token_single_use_witness :
  let w' := fst (resetPassword sample_env "r3set" (Some "new") reset_world) in
  snd (resetPassword sample_env "r3set" (Some "new") reset_world)
  = Sent (mkResponse 200 (Message "Password reset successful"))
  /\ resetPassword sample_env "r3set" (Some "newer") w'
     = (w', Sent (mkResponse 400 (Message "Invalid or expired reset token"))).
Proof.
  assert (find (by_reset_token sample_env "r3set") (users reset_world) = Some erin)
    as Hfind by reflexivity.
  exact (resetPassword_token_single_use sample_env sample_env "r3set" "new"
           (Some "newer") reset_world erin reset_world_NoDup Hfind
           erin_holds_token_alone).
Defined.

(** X9, witness: erin, locked, resets and is still refused. *)
Lemma resetPassword_keeps_lock_witness :
  let w' := fst (resetPassword sample_env "r3set" (Some "new") reset_world) in
  snd (resetPassword sample_env "r3set" (Some "new") reset_world)
  = Sent (mkResponse 200 (Message "Password reset successful"))
  /\ loginUser later_env "erin@example.org" (Some "new") w'
     = (w', Sent (mkResponse 401 (Message locked_message))).
Proof.
  assert (find (by_reset_token sample_env "r3set") (users reset_world) = Some erin)
    as Hfind by reflexivity.
  assert (find (by_email "erin@example.org") (users reset_world) = Some erin)
    as Hmail by reflexivity.
  exact (resetPassword_keeps_lock sample_env later_env "r3set" "new"
           "erin@example.org" (Some "new") reset_world erin reset_world_NoDup
           Hfind Hmail eq_refl).
Defined.

(** X10, witness: an unknown address, and alice with a transport that
    fails. *)
Lemma forgotPassword_issues_token_witness :
  forgotPassword sample_env "nobody@example.org" sample_world
  = (sample_world, Sent (mkResponse 404 (Message "User not found")))
  /\ exists db',
       forgotPassword later_env "alice@example.org" sample_world
       = (mkWorld db' [mkMail "alice@example.org" "Password Reset Request"
                         "http://localhost:5173/reset-password?token=beef"],
          Sent (mkResponse 500 (Message "Server error")))
       /\ option_map (fun v => (resetPasswordToken v, resetPasswordExpiry v))
            (find (by_email "alice@example.org") db')
          = Some (Some "beef", Some 3602000).
Proof.
  assert (find (by_email "nobody@example.org") (users sample_world) = None)
    as Hnone by reflexivity.
  assert (find (by_email "alice@example.org") (users sample_world) = Some alice)
    as Hfind by reflexivity.
  split.
  - exact (proj1 (forgotPassword_issues_token sample_env "nobody@example.org"
                    sample_world) Hnone).
  - destruct (proj2 (forgotPassword_issues_token later_env "alice@example.org"
                       sample_world) alice sample_world_NoDup Hfind)
      as (db' & Hrun & Hstored & _).
    exists db'. split; [exact Hrun|].
    exact (f_equal (option_map _) Hstored).
Defined.

(** X11, witness: alice forgets, resets within the hour and logs in. *)
Lemma password_reset_round_trip_witness :
  let w1 := fst (forgotPassword sample_env "alice@example.org" sample_world) in
  let w2 := fst (resetPassword later_env "f00d" (Some "fresh") w1) in
  snd (resetPassword later_env "f00d" (Some "fresh") w1)
  = Sent (mkResponse 200 (Message "Password reset successful"))
  /\ exists w3 b,
       loginUser later_env "alice@example.org" (Some "fresh") w2
       = (w3, Sent (mkResponse 200 b)).
Proof.
  assert (find (by_email "alice@example.org") (users sample_world) = Some alice)
    as Hfind by reflexivity.
  assert (forall v, In v (users sample_world) -> v <> alice ->
                    resetPasswordToken v <> Some (randomHex sample_env)) as Hfresh.
  { unfold sample_world. simpl.
    intros v [<-|[<-|[]]] _; discriminate. }
  assert (now later_env < now sample_env + hour_ms) as Hnow by reflexivity.
  exact (password_reset_round_trip sample_env later_env later_env
           "alice@example.org" "fresh" sample_world alice sample_world_NoDup
           Hfind eq_refl (or_introl eq_refl) Hfresh Hnow eq_refl).
Defined.

(** X12, witness: bob asks for the mail again; alice is verified. *)
Lemma resendVerificationEmail_rotates_token_only_witness :
  resendVerificationEmail sample_env None sample_world
  = (sample_world, Sent (mkResponse 400 (Message "Email is required")))
  /\ resendVerificationEmail sample_env (Some "alice@example.org") sample_world
     = (sample_world, Sent (mkResponse 400 (Message "Email is already verified")))
  /\ option_map (fun v => (verificationToken v, verificationTokenExpiry v))
       (find (by_id "id2")
          (users (fst (resendVerificationEmail sample_env
                         (Some "bob@example.org") sample_world))))
     = Some (Some "f00d", Some 5000).
Proof.
  assert ("alice@example.org" <> "") as Ha by discriminate.
  assert ("bob@example.org" <> "") as Hb by discriminate.
  assert (find (by_email "alice@example.org") (users sample_world) = Some alice)
    as Hfa by reflexivity.
  assert (find (by_email "bob@example.org") (users sample_world) = Some bob)
    as Hfb by reflexivity.
  destruct (resendVerificationEmail_rotates_token_only sample_env sample_world)
    as (Hmissing & _ & Hverified & Hrotate).
  split; [exact (Hmissing None eq_refl)|].
  split; [exact (Hverified "alice@example.org" alice Ha Hfa eq_refl)|].
  destruct (Hrotate "bob@example.org" bob Hb Hfb eq_refl) as [Hrun _].
  rewrite Hrun. reflexivity.
Defined.

(** X13, witness: no token, a token the verifier rejects, a ticket
    without payload. *)
Lemma googleLogin_rejects_bad_tokens_witness :
  googleLogin oauth_env None sample_world
  = (sample_world, Sent (mkResponse 400 (Message "ID Token is required")))
  /\ googleLogin oauth_env (Some "forged") sample_world
     = (sample_world,
        Sent (mkResponse 401
                (MessageError "Failed to verify Google token" TokenError)))
  /\ googleLogin oauth_env (Some "g-empty") sample_world
     = (sample_world, Sent (mkResponse 400 (Message "Invalid Google token"))).
Proof.
  assert ("forged" <> "") as H1 by discriminate.
  assert ("g-empty" <> "") as H2 by discriminate.
  destruct (googleLogin_rejects_bad_tokens oauth_env sample_world)
    as (Hmissing & Hthrown & Hempty).
  split; [exact (Hmissing None eq_refl)|].
  split; [exact (Hthrown "forged" H1 eq_refl)|exact (Hempty "g-empty" H2 eq_refl)].
Defined.

(** X14, witness: hugo signs in with Google for the first time; Google
    has not verified his address. *)
Lemma googleLogin_creates_account_witness :
  googleLogin oauth_env (Some "g-hugo") sample_world
  = (mkWorld
       [alice; bob;
        mkUser "id9" (Some "Hugo") "hugo@example.org" (Some "salt:f00d") ""
          false (Some "google-sub-7") 0 None None 0 None None None None 0 false
          None] [],
     Sent (mkResponse 200
             (SessionBody "jwt-id9"
                (mkProfile "id9" "hugo@example.org" (Some "Hugo") "" false)))).
Proof.
  assert ("g-hugo" <> "") as Ht by discriminate.
  assert (castEmail (g_email hugo_payload) <> "") as Hc by discriminate.
  assert (g_sub hugo_payload <> "") as Hs by discriminate.
  assert (find (by_email (g_email hugo_payload)) (users sample_world) = None)
    as Hfind by reflexivity.
  exact (googleLogin_creates_account oauth_env "g-hugo" hugo_payload
           sample_world Ht eq_refl Hfind Hc Hs eq_refl).
Defined.

(** X15, witness: carol, locked, signs in with Google and is still
    refused with her password. *)
Lemma googleLogin_ignores_lock_witness :
  exists w' profile,
    googleLogin oauth_env (Some "g-carol") locked_world
    = (w', Sent (mkResponse 200 (SessionBody "jwt-id3" profile)))
    /\ loginUser sample_env "carol@example.org" (Some "letmein") w'
       = (w', Sent (mkResponse 401 (Message locked_message))).
Proof.
  assert ("g-carol" <> "") as Ht by discriminate.
  assert (find (by_email (g_email carol_payload)) (users locked_world)
          = Some carol) as Hfind by reflexivity.
  exact (googleLogin_ignores_lock oauth_env sample_env "g-carol" carol_payload
           (Some "letmein") locked_world carol locked_world_NoDup Ht eq_refl
           Hfind eq_refl).
Defined.

(** X16, witness: ivan, linked to another subject, signs in with
    carol's payload and keeps his link. *)
Lemma googleLogin_links_once_witness :
  exists w' profile u',
    googleLogin oauth_env (Some "g-carol") linked_world
    = (w', Sent (mkResponse 200 (SessionBody "jwt-id8" profile)))
    /\ find (by_id "id8") (users w') = Some u'
    /\ googleId u' = Some "google-sub-OLD".
Proof.
  assert ("g-carol" <> "") as Ht by discriminate.
  assert ("google-sub-OLD" <> "") as Hg by discriminate.
  assert (find (by_email (g_email carol_payload)) (users linked_world)
          = Some ivan) as Hfind by reflexivity.
  exact (googleLogin_links_once oauth_env "g-carol" carol_payload linked_world
           ivan "google-sub-OLD" linked_world_NoDup Ht eq_refl Hfind eq_refl Hg).
Defined.

(** X17, witness: for alice's id the first draw gives her own code,
    which is taken, and the second draw gives a free one; with the first
    draw alone the call is still pending. *)
Lemma generateReferralCode_returns_free_code_witness :
  generateReferralCode ["a1b2c3"; "d4e5f6"] "id1" sample_world
  = (sample_world, Next "ID1D4E5F")
  /\ find (fun u => field_is (referralCode u) "ID1D4E5F") (users sample_world)
     = None
  /\ generateReferralCode ["a1b2c3"] "id1" sample_world
     = (sample_world, Pending).
Proof.
  destruct (generateReferralCode_returns_free_code ["a1b2c3"; "d4e5f6"] "id1"
              sample_world) as (Hfree & Hfirst & _).
  assert (generateReferralCode ["a1b2c3"; "d4e5f6"] "id1" sample_world
          = (sample_world, Next "ID1D4E5F")) as Hrun.
  { apply (Hfirst ["a1b2c3"] "d4e5f6" []); [reflexivity| |reflexivity].
    simpl. intros h [<-|[]]. discriminate. }
  split; [exact Hrun|].
  split; [exact (proj1 (proj2 (proj2 (Hfree sample_world "ID1D4E5F" Hrun))))|].
  apply (proj2 (proj2 (generateReferralCode_returns_free_code ["a1b2c3"] "id1"
                         sample_world))).
  simpl. intros h [<-|[]]. discriminate.
Defined.

(** X18, witness: frank asks for his referral code twice. *)
Lemma getReferralInfo_assigns_once_witness :
  let w' := mkWorld (updateOne (set_referralCode (Some "ID6A1B2C") frank)
                       (users referral_world)) [] in
  getReferralInfo sample_env "id6" referral_world
  = (w', Sent (mkResponse 200 (ReferralBody (Some "ID6A1B2C") 0 3)))
  /\ getReferralInfo later_env "id6" w'
     = (w', Sent (mkResponse 200 (ReferralBody (Some "ID6A1B2C") 0 3)))
  /\ getReferralInfo sample_env "id1" referral_world
     = (referral_world, Sent (mkResponse 200 (ReferralBody (Some "ID1A1B2C") 0 0))).
Proof.
  assert (find (by_id "id6") (users referral_world) = Some frank)
    as Hfrank by reflexivity.
  assert (find (by_id "id1") (users referral_world) = Some alice)
    as Halice by reflexivity.
  assert ("ID6A1B2C" <> "") as Hne by discriminate.
  assert (generateReferralCode (referralHex sample_env) (_id frank) referral_world
          = (referral_world, Next "ID6A1B2C")) as Hgen by reflexivity.
  destruct (proj2 (getReferralInfo_assigns_once sample_env later_env "id6"
                     referral_world frank referral_world_NoDup Hfrank)
              "ID6A1B2C" eq_refl Hgen Hne) as (Hfirst & Hsecond & _).
  split; [exact Hfirst|]. split; [exact Hsecond|].
  exact (proj1 (getReferralInfo_assigns_once sample_env later_env "id1"
                  referral_world alice referral_world_NoDup Halice) eq_refl).
Defined.

(** X19, witness: frank applies an unknown code; alice applies her
    own. *)
Lemma applyReferralCode_rejects_unknown_and_own_witness :
  applyReferralCode sample_env "id6" "NOSUCH00" referral_world
  = (referral_world, Sent (mkResponse 404 (Message "Invalid referral code")))
  /\ applyReferralCode sample_env "id1" "ID1A1B2C" referral_world
     = (referral_world,
        Sent (mkResponse 400 (Message "You cannot refer yourself"))).
Proof.
  assert (find (fun v => field_is (referralCode v) "NOSUCH00")
            (users referral_world) = None) as Hnone by reflexivity.
  assert (find (fun v => field_is (referralCode v) "ID1A1B2C")
            (users referral_world) = Some alice) as Hown by reflexivity.
  split.
  - exact (proj1 (applyReferralCode_rejects_unknown_and_own sample_env "id6"
                    "NOSUCH00" referral_world) Hnone).
  - exact (proj2 (applyReferralCode_rejects_unknown_and_own sample_env "id1"
                    "ID1A1B2C" referral_world) alice Hown eq_refl).
Defined.

(** X20, witness: frank, at 3 points, shares three times. *)
Lemma shareReferralLink_accumulates_witness :
  let w' := share_times 3 sample_env "id6" referral_world in
  sawabPoints frank = 3
  /\ find (by_id "id6") (users w')
     = Some (mkUser (_id frank) (name frank) (email frank) (password frank)
               (profilePicture frank) (isVerified frank) (googleId frank) 9
               (referralCode frank) (referredBy frank) (referralCount frank)
               (verificationToken frank) (verificationTokenExpiry frank)
               (resetPasswordToken frank) (resetPasswordExpiry frank)
               (loginAttempts frank) (accountLocked frank) (lastLogin frank))
  /\ (forall i, i <> "id6" ->
        find (by_id i) (users w') = find (by_id i) (users referral_world))
  /\ outbox w' = outbox referral_world
  /\ snd (shareReferralLink sample_env "id6" w')
     = Sent (mkResponse 200
               (PointsMessageBody "Points awarded for sharing" 11)).
Proof.
  assert (find (by_id "id6") (users referral_world) = Some frank)
    as Hfrank by reflexivity.
  assert (- MAX_SAFE_INTEGER <= sawabPoints frank) as Hlow
    by (vm_compute; discriminate).
  assert (sawabPoints frank + 2 * Z.of_nat 3 + 2 <= MAX_SAFE_INTEGER) as Hhigh
    by (vm_compute; discriminate).
  split; [reflexivity|].
  exact (shareReferralLink_accumulates 3 sample_env "id6" referral_world frank
           Hfrank Hlow Hhigh).
Defined.

(** X22, witness: a header with a token, and a bare 'Bearer' next to a
    cookie. *)
Lemma bearer_token_sources_witness :
  bearer_token (mkHeaders (Some "Bearer jwt-alice") (Some "jwt-bob"))
  = Some "jwt-alice"
  /\ protect sample_env (mkHeaders (Some "Bearer") (Some "jwt-alice")) sample_world
     = (sample_world,
        Sent (mkResponse 401 (Message "Not authorized to access this route")))
  /\ bearer_token (mkHeaders (Some "Basic abc") (Some "jwt-alice"))
     = Some "jwt-alice".
Proof.
  split; [|split].
  - exact (proj1 (bearer_token_sources sample_env (Some "jwt-bob") sample_world)
             "jwt-alice" eq_refl).
  - exact (proj2 (proj1 (proj2 (bearer_token_sources sample_env
                                  (Some "jwt-alice") sample_world))
                    "Bearer" eq_refl eq_refl)).
  - exact (proj2 (proj2 (bearer_token_sources sample_env (Some "jwt-alice")
                           sample_world)) "Basic abc" eq_refl).
Defined.

(** X23, witness: alice's balance after dave's trace. *)
Lemma points_never_decrease_witness :
  exists u',
    find (by_id "id1")
      (users (serve sample_updateProfile sample_trace sample_world)) = Some u'
    /\ sawabPoints alice <= sawabPoints u'
    /\ referralCount alice <= referralCount u'.
Proof.
  assert (In alice (users sample_world)) as Hin by (simpl; auto).
  exact (points_never_decrease sample_updateProfile sample_updateProfile_ledger
           sample_trace sample_world alice sample_world_NoDup Hin).
Defined.

(** X24, witness: alice, verified and with a referral code, after
    dave's trace. *)
Lemma marks_are_permanent_witness :
  exists u',
    find (by_id "id1")
      (users (serve sample_updateProfile sample_trace sample_world)) = Some u'
    /\ isVerified u' = true
    /\ referralCode u' = Some "ID1A1B2C".
Proof.
  assert (In alice (users sample_world)) as Hin by (simpl; auto).
  destruct (marks_are_permanent sample_updateProfile sample_updateProfile_ledger
              sample_trace sample_world alice sample_world_NoDup Hin)
    as (u' & Hfind & Hv & _ & Hk).
  exists u'. split; [exact Hfind|].
  split; [exact (Hv eq_refl)|exact (Hk eq_refl)].
Defined.

(** X25, witness: the collection after dave's trace. *)
Lemma accounts_always_have_password_witness :
  Forall (fun u => exists h, password u = Some h)
    (users (serve sample_updateProfile sample_trace (mkWorld [] []))).
Proof.
  exact (accounts_always_have_password sample_updateProfile
           sample_updateProfile_ledger sample_trace).
Defined.

(** X26, witness: a paragraph with one tag, and a text with a stray
    '<'. *)
Lemma strip_tags_removes_complete_tags_witness :
  strip_tags "Hello, " = "Hello, "
  /\ strip_tags "Hello, <b>Bob</b>" = "Hello, Bob"
  /\ strip_tags "Hello, 2 < 3" = "Hello, 2 < 3"
  /\ sendEmail_text (Some "plain") "<p>html</p>" = "plain".
Proof.
  assert ("plain" <> "") as Hne by discriminate.
  destruct (strip_tags_removes_complete_tags "Hello, " "b" "" "Bob</b>"
              "<p>html</p>" "plain" eq_refl eq_refl eq_refl)
    as (Htext & Htag & _ & _ & Hgiven & _).
  destruct (strip_tags_removes_complete_tags "Hello, 2 " "" " 3" ""
              "" "plain" eq_refl eq_refl eq_refl)
    as (_ & _ & Hopen & _).
  split; [exact Htext|]. split; [exact Htag|].
  split; [exact Hopen|exact (Hgiven Hne)].
Defined.

(** X27, witness: alice reads her profile and her points. *)
Lemma authenticated_reads_witness :
  protect sample_env (mkHeaders (Some "Bearer jwt-alice") None) sample_world
  = (sample_world, Next "id1")
  /\ dispatch sample_updateProfile sample_env
       (Authenticated (mkHeaders (Some "Bearer jwt-alice") None) GetMe)
       sample_world
     = (sample_world, Sent (mkResponse 200 (UserBody (Some (toJSON alice)))))
  /\ dispatch sample_updateProfile sample_env
       (Authenticated (mkHeaders (Some "Bearer jwt-alice") None)
          GetReferralPoints) sample_world
     = (sample_world, Sent (mkResponse 200 (PointsBody 0))).
Proof.
  assert ("jwt-alice" <> "") as Hne by discriminate.
  exact (authenticated_reads sample_updateProfile sample_env
           (mkHeaders (Some "Bearer jwt-alice") None) sample_world "jwt-alice"
           "id1" alice eq_refl Hne eq_refl eq_refl eq_refl).
Defined.

(** ** Sequences of requests *)

Section Sequences.

Context {platform : Platform}.

(** X28.  The same address cannot be registered twice: after a
    registration that succeeded, a registration for an email that casts
    to the same address is answered 400 'User already exists' and the
    collection stays as the first registration left it. *)
Theorem register_twice :
  forall env env' req_name req_name' req_email req_email' req_password
         req_password' w,
    req_email <> "" -> req_password <> "" ->
    find (by_email req_email) (users w) = None ->
    castEmail req_email <> "" ->
    bcrypt_hash req_password (genSalt env) <> "" ->
    existsb (by_id (newObjectId env)) (users w) = false ->
    req_email' <> "" -> req_password' <> "" ->
    castEmail req_email' = castEmail req_email ->
    let w1 := fst (register env req_name (Some req_email) (Some req_password) w) in
    register env' req_name' (Some req_email') (Some req_password') w1
    = (w1, Sent (mkResponse 400 (Message "User already exists")))
    /\ List.length (users w1) = S (List.length (users w)).
Proof.
  intros env env' req_name req_name' req_email req_email' req_password
         req_password' w He Hp Hfind Hcast Hhash Hid He' Hp' Hsame w1.
  unfold w1.
  rewrite (register_success_step env req_name req_email req_password w)
    by assumption.
  cbn [fst].
  set (doc := mkUser _ _ _ _ _ _ _ _ _ _ _ _ _ _ _ _ _ _).
  set (out := outbox w ++ _).
  assert (find (by_email req_email') (users w ++ [doc]) = Some doc) as Hfind1.
  { apply find_last.
    - unfold by_email in *. now rewrite Hsame.
    - unfold by_email, doc. cbn. rewrite Hsame. apply String.eqb_refl. }
  split.
  - apply String.eqb_neq in He', Hp'.
    unfold register. run_handler. rewrite He', Hp'. cbn. rewrite Hfind1.
    reflexivity.
  - cbn [users]. rewrite length_app. simpl. lia.
Qed.

(** X29.  Failed logins add up: on a verified, unlocked account whose
    counter is at [a], below 5, [n] logins in a row with a password that
    does not match, with [a + n] at most 5, leave the counter at [a + n]
    and the account locked exactly when [a + n] is 5.  From a counter at 0, four
    failures do not lock and the fifth does. *)
Theorem failed_logins_add_up :
  forall n env req_email pw w u h,
    NoDup (ids (users w)) ->
    find (by_email req_email) (users w) = Some u ->
    accountLocked u = false ->
    isVerified u = true ->
    password u = Some h ->
    bcrypt_compare pw h = false ->
    0 <= loginAttempts u < 5 ->
    loginAttempts u + Z.of_nat n <= 5 ->
    exists u',
      find (by_email req_email)
        (users (login_times n env req_email (Some pw) w)) = Some u'
      /\ loginAttempts u' = loginAttempts u + Z.of_nat n
      /\ accountLocked u' = (loginAttempts u + Z.of_nat n =? 5)
      /\ NoDup (ids (users (login_times n env req_email (Some pw) w))).
Proof.
  induction n as [|n IH]; intros env req_email pw w u h Hnd Hfind Hlock Hver
                                 Hpw Hcmp Hpos Hle.
  - exists u. cbn [login_times]. rewrite Z.add_0_r.
    repeat split; auto.
    rewrite Hlock. symmetry. apply Z.eqb_neq. lia.
  - cbn [login_times].
    rewrite (login_wrong_password_step env req_email pw w u h) by assumption.
    cbn [fst]. cbv zeta.
    pose proof (find_some _ _ Hfind) as [_ Hmail].
    destruct (Z.geb_spec (loginAttempts u + 1) 5) as [Hge|Hlt].
    + (* the count has reached 5: this was the last failure *)
      assert (n = 0%nat) as -> by lia.
      cbn [login_times users].
      eexists. split.
      * apply (find_after_save _ _ u); auto.
      * cbn. split; [lia|]. split; [symmetry; apply Z.eqb_eq; lia|].
        now rewrite ids_updateOne.
    + set (u1 := set_loginAttempts (loginAttempts u + 1) u).
      set (w1 := mkWorld (updateOne u1 (users w)) (outbox w)).
      assert (find (by_email req_email) (users w1) = Some u1) as Hfind1
        by (apply (find_after_save _ _ u); auto).
      assert (NoDup (ids (users w1))) as Hnd1
        by (unfold w1; cbn [users]; now rewrite ids_updateOne).
      destruct (IH env req_email pw w1 u1 h Hnd1 Hfind1) as (u' & Hf & Ha & Hl & Hn);
        auto; try (unfold u1; cbn; lia).
      exists u'. split; [exact Hf|].
      unfold u1 in Ha, Hl. cbn in Ha, Hl.
      split; [lia|]. split; [|exact Hn].
      rewrite Hl. f_equal. lia.
Qed.

End Sequences.

(** X28, witness: gina registers, then someone else tries her address. *)
Lemma register_twice_witness :
  let w1 := fst (register sample_env (Some "Gina") (Some "gina@example.org")
                   (Some "pw") sample_world) in
  register later_env (Some "Mallory") (Some "gina@example.org") (Some "other") w1
  = (w1, Sent (mkResponse 400 (Message "User already exists")))
  /\ List.length (users w1) = 3%nat.
Proof.
  assert ("gina@example.org" <> "") as He by discriminate.
  assert ("pw" <> "") as Hp by discriminate.
  assert ("other" <> "") as Hp' by discriminate.
  assert (castEmail "gina@example.org" <> "") as Hc by discriminate.
  assert (bcrypt_hash "pw" (genSalt sample_env) <> "") as Hh by discriminate.
  assert (find (by_email "gina@example.org") (users sample_world) = None)
    as Hfind by reflexivity.
  exact (register_twice sample_env later_env (Some "Gina") (Some "Mallory")
           "gina@example.org" "gina@example.org" "pw" "other" sample_world
           He Hp Hfind Hc Hh eq_refl He Hp' eq_refl).
Defined.

(** X29, witness: four wrong passwords on alice do not lock her, five
    do. *)
Lemma failed_logins_add_up_witness :
  (exists u',
      find (by_email "alice@example.org")
        (users (login_times 4 sample_env "alice@example.org" (Some "wrong")
                  sample_world)) = Some u'
      /\ loginAttempts u' = 4 /\ accountLocked u' = false)
  /\ (exists u',
        find (by_email "alice@example.org")
          (users (login_times 5 sample_env "alice@example.org" (Some "wrong")
                    sample_world)) = Some u'
        /\ loginAttempts u' = 5 /\ accountLocked u' = true).
Proof.
  assert (find (by_email "alice@example.org") (users sample_world) = Some alice)
    as Hfind by reflexivity.
  assert (0 <= loginAttempts alice < 5) as Hpos by (simpl; lia).
  assert (loginAttempts alice + Z.of_nat 4 <= 5) as H4 by (simpl; lia).
  assert (loginAttempts alice + Z.of_nat 5 <= 5) as H5 by (simpl; lia).
  split.
  - destruct (failed_logins_add_up 4 sample_env "alice@example.org" "wrong"
                sample_world alice "salt:secret" sample_world_NoDup Hfind
                eq_refl eq_refl eq_refl eq_refl Hpos H4)
      as (u' & Hf & Ha & Hl & _).
    exists u'. split; [exact Hf|]. split; [exact Ha|exact Hl].
  - destruct (failed_logins_add_up 5 sample_env "alice@example.org" "wrong"
                sample_world alice "salt:secret" sample_world_NoDup Hfind
                eq_refl eq_refl eq_refl eq_refl Hpos H5)
      as (u' & Hf & Ha & Hl & _).
    exists u'. split; [exact Hf|]. split; [exact Ha|exact Hl].
Defined.
